(** * errorblob: the storage contract, its two backends and local ranking

    A shallow embedding of [errorblob/models.py], [errorblob/storage/local.py]
    and [errorblob/storage/turbopuffer_backend.py], with the parts of the
    Python runtime they call ([str] methods, [difflib.SequenceMatcher],
    [datetime.isoformat], the JSON-mode dump and validation of a model).

    Conventions of the embedding:
    - a Python [str] is a [string]; its characters are the code points
      U+0000..U+00FF, on which [str.lower] and [str.strip] are closed;
    - a Python [int] is a [Z] where it may be negative ([limit]), a [nat]
      where it is a length or a position, an [N] where it is a calendar
      field;
    - a Python [float] is an exact rational [Q]: rounding is not modelled;
    - an exception is a value of [Exception]; code that may raise returns a
      [result]. *)

From Stdlib Require Import List String Ascii Bool Arith NArith ZArith QArith Qminmax.
From Stdlib Require Import Sorted Permutation Lia.
Import ListNotations.

Set Warnings "-register-all".

Close Scope Q_scope.
Local Open Scope string_scope.
Local Open Scope list_scope.
Local Open Scope nat_scope.

(** ** Exceptions and results *)

Inductive Exception : Type :=
| ValidationError (field : string)
| JSONDecodeError
| TypeError
| ValueError
| OSError
| MediumError (detail : string).

Inductive result (A : Type) : Type :=
| Ok (a : A)
| Raise (e : Exception).
Arguments Ok {A} a.
Arguments Raise {A} e.

Definition bind {A B} (m : result A) (k : A -> result B) : result B :=
  match m with
  | Ok a => k a
  | Raise e => Raise e
  end.

Declare Scope result_scope.
Delimit Scope result_scope with result.
Notation "'let*' x ':=' m 'in' k" := (bind m (fun x => k))
  (at level 10, x pattern, m at level 100, k at level 200) : result_scope.
Local Open Scope result_scope.

(** [try: ... except Exception: return d] *)
Definition try_except {A} (m : result A) (d : A) : A :=
  match m with
  | Ok a => a
  | Raise _ => d
  end.

(** [[f(x) for x in l]] where [f] may raise: the first exception wins. *)
Fixpoint traverse {A B} (f : A -> result B) (l : list A) : result (list B) :=
  match l with
  | [] => Ok []
  | x :: l' =>
      let* y := f x in
      let* ys := traverse f l' in
      Ok (y :: ys)
  end.

(** ** Python [str] *)

Module PyStr.

Definition code (c : ascii) : nat := nat_of_ascii c.

(** [str.lower] on one code point below U+0100: the letters A-Z and the
    Latin-1 capitals U+00C0..U+00DE (the sign U+00D7 apart) move up by 32. *)
Definition lower_char (c : ascii) : ascii :=
  let n := code c in
  if ((65 <=? n) && (n <=? 90)) ||
     ((192 <=? n) && (n <=? 222) && negb (n =? 215))
  then ascii_of_nat (n + 32)
  else c.

Fixpoint lower (s : string) : string :=
  match s with
  | EmptyString => EmptyString
  | String c r => String (lower_char c) (lower r)
  end.

(** The code points below U+0100 for which [str.isspace] holds. *)
Definition isspace (c : ascii) : bool :=
  let n := code c in
  ((9 <=? n) && (n <=? 13)) || ((28 <=? n) && (n <=? 32)) ||
  (n =? 133) || (n =? 160).

Fixpoint lstrip (s : string) : string :=
  match s with
  | EmptyString => EmptyString
  | String c r => if isspace c then lstrip r else s
  end.

(** [rstrip] keeps a character when it is not a space or when something
    is left after it. *)
Fixpoint rstrip (s : string) : string :=
  match s with
  | EmptyString => EmptyString
  | String c r =>
      match rstrip r with
      | EmptyString => if isspace c then EmptyString else String c EmptyString
      | r' => String c r'
      end
  end.

Definition strip (s : string) : string := rstrip (lstrip s).

(** Truth value of a [str]: non-empty. *)
Definition truthy (s : string) : bool :=
  match s with
  | EmptyString => false
  | _ => true
  end.

(** [s.split(sep)] for a one-character separator. *)
Fixpoint split (sep : ascii) (s : string) : list string :=
  match s with
  | EmptyString => [EmptyString]
  | String c r =>
      if Ascii.eqb c sep then EmptyString :: split sep r
      else match split sep r with
           | [] => [String c EmptyString]
           | h :: t => String c h :: t
           end
  end.

(** [sep.join(l)] *)
Fixpoint join (sep : string) (l : list string) : string :=
  match l with
  | [] => EmptyString
  | [x] => x
  | x :: rest => x ++ sep ++ join sep rest
  end.

Fixpoint startswith (s p : string) : bool :=
  match p, s with
  | EmptyString, _ => true
  | String _ _, EmptyString => false
  | String a p', String b s' => Ascii.eqb a b && startswith s' p'
  end.

(** [needle in hay] *)
Fixpoint contains (hay needle : string) : bool :=
  startswith hay needle ||
  match hay with
  | EmptyString => false
  | String _ r => contains r needle
  end.

Fixpoint has_char (c : ascii) (s : string) : bool :=
  match s with
  | EmptyString => false
  | String d r => Ascii.eqb d c || has_char c r
  end.

Fixpoint chars (s : string) : list ascii :=
  match s with
  | EmptyString => []
  | String c r => c :: chars r
  end.

End PyStr.

(** ** Python's [difflib.SequenceMatcher]

    [SequenceMatcher(None, a, b)]: no junk predicate, [autojunk] left at its
    default.  Positions and sizes are natural numbers; [i - k + 1] is written
    [i + 1 - k], which is the same number since [k <= i + 1] (see
    [find_longest_match_bounds]). *)

Module Difflib.

(** [Match(a, b, size)] *)
Definition Match : Type := (nat * nat * nat)%type.
Definition size (m : Match) : nat := snd m.

(** A [dict] from positions of [b] to lengths, as an association list;
    [get d key 0] is [d.get(key, 0)]. *)
Definition dict : Type := list (nat * nat).

Fixpoint get (d : dict) (key : nat) (default : nat) : nat :=
  match d with
  | [] => default
  | (k, v) :: d' => if k =? key then v else get d' key default
  end.

Definition item (s : list ascii) (i : nat) : ascii := nth i s Ascii.zero.

Section Matcher.

Variables a b : list ascii.

(** [__chain_b]: the positions of [elt] in [b], ascending. *)
Fixpoint positions_from (i : nat) (s : list ascii) (elt : ascii) : list nat :=
  match s with
  | [] => []
  | c :: s' =>
      if Ascii.eqb c elt then i :: positions_from (S i) s' elt
      else positions_from (S i) s' elt
  end.

(** With [len(b) >= 200], an element found more than [n // 100 + 1]
    times is popular and leaves [b2j]. *)
Definition popular (elt : ascii) : bool :=
  let n := List.length b in
  (200 <=? n) && (n / 100 + 1 <? List.length (positions_from 0 b elt)).

(** [b2j.get(elt, nothing)] *)
Definition b2j (elt : ascii) : list nat :=
  if popular elt then [] else positions_from 0 b elt.

(** The inner loop of [find_longest_match] over [b2j.get(a[i], nothing)]:
    [continue] below [blo], [break] from [bhi] on. *)
Fixpoint scan (blo bhi i : nat) (js : list nat) (j2len newj2len : dict)
         (best : Match) : dict * Match :=
  match js with
  | [] => (newj2len, best)
  | j :: js' =>
      if j <? blo then scan blo bhi i js' j2len newj2len best
      else if bhi <=? j then (newj2len, best)
      else
        let k := match j with
                 | 0 => 0
                 | S j' => get j2len j' 0
                 end + 1 in
        let '(_, _, bestsize) := best in
        scan blo bhi i js' j2len ((j, k) :: newj2len)
             (if bestsize <? k then (i + 1 - k, j + 1 - k, k) else best)
  end.

(** One turn of [for i in range(alo, ahi)]. *)
Definition row (blo bhi : nat) (st : dict * Match) (i : nat) : dict * Match :=
  scan blo bhi i (b2j (item a i)) (fst st) [] (snd st).

(** [while besti > alo and bestj > blo and a[besti-1] == b[bestj-1]]
    (no element of [b] is junk, so [isbjunk] is always false). *)
Fixpoint extend_left (alo blo besti bestj bestsize : nat) {struct besti} : Match :=
  match besti, bestj with
  | S i', S j' =>
      if (alo <=? i') && (blo <=? j') && Ascii.eqb (item a i') (item b j')
      then extend_left alo blo i' j' (bestsize + 1)
      else (besti, bestj, bestsize)
  | _, _ => (besti, bestj, bestsize)
  end.

(** [while besti+bestsize < ahi and bestj+bestsize < bhi and
    a[besti+bestsize] == b[bestj+bestsize]]; [n] counts the positions
    left before [ahi]. *)
Fixpoint extend_right (n ahi bhi besti bestj bestsize : nat) : Match :=
  match n with
  | 0 => (besti, bestj, bestsize)
  | S n' =>
      if (besti + bestsize <? ahi) && (bestj + bestsize <? bhi) &&
         Ascii.eqb (item a (besti + bestsize)) (item b (bestj + bestsize))
      then extend_right n' ahi bhi besti bestj (bestsize + 1)
      else (besti, bestj, bestsize)
  end.

(** [find_longest_match(alo, ahi, blo, bhi)].  The two closing loops of
    the Python text extend the match over junk only; they never run
    here. *)
Definition find_longest_match (alo ahi blo bhi : nat) : Match :=
  let '(_, (besti, bestj, bestsize)) :=
    fold_left (row blo bhi) (seq alo (ahi - alo)) ([], (alo, blo, 0)) in
  let '(besti, bestj, bestsize) := extend_left alo blo besti bestj bestsize in
  extend_right (ahi - (besti + bestsize)) ahi bhi besti bestj bestsize.

(** The [while queue] loop of [get_matching_blocks].  The head of
    [queue] is the end of the Python list ([pop] and [append] work
    there).  [None] means the loop was cut short; [blocks_loop_returns]
    shows it is not. *)
Fixpoint blocks_loop (fuel : nat) (queue : list (nat * nat * nat * nat))
         (matching_blocks : list Match) : option (list Match) :=
  match queue with
  | [] => Some matching_blocks
  | (alo, ahi, blo, bhi) :: queue' =>
      match fuel with
      | 0 => None
      | S fuel' =>
          let '(i, j, k) := find_longest_match alo ahi blo bhi in
          if k =? 0 then blocks_loop fuel' queue' matching_blocks
          else
            let q1 := if (alo <? i) && (blo <? j)
                      then (alo, i, blo, j) :: queue' else queue' in
            let q2 := if (i + k <? ahi) && (j + k <? bhi)
                      then (i + k, ahi, j + k, bhi) :: q1 else q1 in
            blocks_loop fuel' q2 (matching_blocks ++ [(i, j, k)])
      end
  end.

(** [matching_blocks.sort()]: tuples compare lexicographically. *)
Definition match_ltb (x y : Match) : bool :=
  let '(i1, j1, k1) := x in
  let '(i2, j2, k2) := y in
  (i1 <? i2) || ((i1 =? i2) && ((j1 <? j2) || ((j1 =? j2) && (k1 <? k2)))).

Fixpoint insert_match (x : Match) (l : list Match) : list Match :=
  match l with
  | [] => [x]
  | y :: l' => if match_ltb x y then x :: l else y :: insert_match x l'
  end.

Definition sort_matches (l : list Match) : list Match :=
  fold_right insert_match [] l.

(** The loop that merges adjacent equal blocks into [non_adjacent]. *)
Fixpoint collapse (i1 j1 k1 : nat) (blocks : list Match) : list Match :=
  match blocks with
  | [] => if k1 =? 0 then [] else [(i1, j1, k1)]
  | (i2, j2, k2) :: rest =>
      if (i1 + k1 =? i2) && (j1 + k1 =? j2)
      then collapse i1 j1 (k1 + k2) rest
      else (if k1 =? 0 then [] else [(i1, j1, k1)]) ++ collapse i2 j2 k2 rest
  end.

(** [get_matching_blocks()] *)
Definition get_matching_blocks : list Match :=
  let la := List.length a in
  let lb := List.length b in
  let matching_blocks :=
    match blocks_loop (2 * la + 1) [(0, la, 0, lb)] [] with
    | Some l => l
    | None => []
    end in
  collapse 0 0 0 (sort_matches matching_blocks) ++ [(la, lb, 0)].

(** [sum(triple[-1] for triple in self.get_matching_blocks())] *)
Definition matches : nat :=
  fold_right (fun m acc => size m + acc) 0 get_matching_blocks.

End Matcher.

(** [_calculate_ratio(matches, length)] *)
Definition _calculate_ratio (matches length : nat) : Q :=
  if length =? 0 then 1%Q
  else (2 * inject_Z (Z.of_nat matches) / inject_Z (Z.of_nat length))%Q.

(** [SequenceMatcher(None, a, b).ratio()] *)
Definition ratio (a b : string) : Q :=
  _calculate_ratio (matches (PyStr.chars a) (PyStr.chars b))
                   (String.length a + String.length b).

End Difflib.

(** ** Python's [datetime] (naive, as [datetime.now()] returns it) *)

Module datetime.

Record fields : Type := mk {
  year : N;
  month : N;
  day : N;
  hour : N;
  minute : N;
  second : N;
  microsecond : N
}.

Definition is_leap (y : N) : bool :=
  (((y mod 4 =? 0) && negb (y mod 100 =? 0)) || (y mod 400 =? 0))%N.

Definition days_in_month (y m : N) : N :=
  (if m =? 2 then (if is_leap y then 29 else 28)
   else if (m =? 4) || (m =? 6) || (m =? 9) || (m =? 11) then 30
   else 31)%N.

(** The ranges the class enforces on its fields. *)
Definition valid (d : fields) : bool :=
  ((1 <=? year d) && (year d <=? 9999) &&
   (1 <=? month d) && (month d <=? 12) &&
   (1 <=? day d) && (day d <=? days_in_month (year d) (month d)) &&
   (hour d <? 24) && (minute d <? 60) && (second d <? 60) &&
   (microsecond d <? 1000000))%N.

(** A [datetime] object: fields within their ranges, as the class
    guarantees of every instance. *)
Record t : Type := make {
  get : fields;
  in_range : valid get = true
}.

(** [datetime(...)] raises [ValueError] out of range. *)
Definition check (r : fields) : option t :=
  match valid r as v return valid r = v -> option t with
  | true => fun H => Some (make r H)
  | false => fun _ => None
  end eq_refl.

Definition digit (n : N) : ascii := ascii_of_N (48 + n).

(** ["%0wd" % n] for [n < 10 ^ w]. *)
Fixpoint zfill (w : nat) (n : N) : string :=
  match w with
  | O => EmptyString
  | S w' => zfill w' (n / 10)%N ++ String (digit (n mod 10)%N) EmptyString
  end.

(** [isoformat()]: [YYYY-MM-DDTHH:MM:SS], then [.ffffff] when the
    microsecond is not zero. *)
Definition isoformat (dt : t) : string :=
  let d := get dt in
  zfill 4 (year d) ++ "-" ++ zfill 2 (month d) ++ "-" ++ zfill 2 (day d) ++
  "T" ++ zfill 2 (hour d) ++ ":" ++ zfill 2 (minute d) ++ ":" ++
  zfill 2 (second d) ++
  (if (microsecond d =? 0)%N then EmptyString
   else "." ++ zfill 6 (microsecond d)).

Definition digit_val (c : ascii) : option N :=
  let n := N_of_ascii c in
  if ((48 <=? n) && (n <=? 57))%N then Some (n - 48)%N else None.

(** Reads exactly [w] decimal digits. *)
Fixpoint read_int (w : nat) (acc : N) (s : string) : option (N * string) :=
  match w with
  | O => Some (acc, s)
  | S w' =>
      match s with
      | EmptyString => None
      | String c r =>
          match digit_val c with
          | Some d => read_int w' (acc * 10 + d)%N r
          | None => None
          end
      end
  end.

Definition expect (c : ascii) (s : string) : option string :=
  match s with
  | String d r => if Ascii.eqb c d then Some r else None
  | EmptyString => None
  end.

Definition obind {A B} (m : option A) (k : A -> option B) : option B :=
  match m with
  | Some a => k a
  | None => None
  end.

(** The reading of the two spellings [isoformat] writes; [None] on any
    other text and on fields out of range. *)
Definition parse_iso (s : string) : option t :=
  obind (read_int 4 0 s) (fun '(y, s) =>
  obind (expect "-" s) (fun s =>
  obind (read_int 2 0 s) (fun '(mo, s) =>
  obind (expect "-" s) (fun s =>
  obind (read_int 2 0 s) (fun '(d, s) =>
  obind (expect "T" s) (fun s =>
  obind (read_int 2 0 s) (fun '(h, s) =>
  obind (expect ":" s) (fun s =>
  obind (read_int 2 0 s) (fun '(mi, s) =>
  obind (expect ":" s) (fun s =>
  obind (read_int 2 0 s) (fun '(se, s) =>
  obind (match s with
         | EmptyString => Some 0%N
         | _ => obind (expect "." s) (fun s =>
                obind (read_int 6 0 s) (fun '(us, s) =>
                match s with
                | EmptyString => Some us
                | _ => None
                end))
         end) (fun us =>
  check (mk y mo d h mi se us))))))))))))).

End datetime.

(** ** The data model ([models.py]) *)

Record ErrorEntry : Type := {
  id : string;
  error_text : string;
  message : string;
  created_at : datetime.t;
  author : option string;
  tags : list string
}.

Record SearchResult : Type := {
  entry : ErrorEntry;
  score : Q
}.

(** Python values that reach the model: what [json.load] returns, and the
    keyword arguments of the constructor. *)
Inductive pyval : Type :=
| PNone
| PBool (b : bool)
| PInt (z : Z)
| PStr (s : string)
| PDatetime (d : datetime.t)
| PList (l : list pyval)
| PDict (items : list (string * pyval)).

(** What the model takes from its surroundings: the [uuid.uuid4()] and
    [datetime.now()] of the [n]-th default drawn, and the readings of a
    [created_at] the embedding does not spell out: the validator's for a
    value that is neither a [datetime] nor a text [isoformat] writes (other
    ISO-8601 spellings, numeric timestamps), and [datetime.fromisoformat]'s
    for such a text. *)
Record Runtime : Type := {
  uuid4 : nat -> string;
  now : nat -> datetime.t;
  lenient_datetime : pyval -> result datetime.t;
  fromisoformat_other : string -> result datetime.t
}.

(** [d.get(key)] on the items of a [dict]. *)
Fixpoint lookup (key : string) (items : list (string * pyval)) : option pyval :=
  match items with
  | [] => None
  | (k, v) :: items' => if String.eqb k key then Some v else lookup key items'
  end.

(** *** Validation of the fields of [ErrorEntry] *)

Definition validate_str (field : string) (v : pyval) : result string :=
  match v with
  | PStr s => Ok s
  | _ => Raise (ValidationError field)
  end.

Definition validate_optional_str (field : string) (v : pyval)
  : result (option string) :=
  match v with
  | PNone => Ok None
  | PStr s => Ok (Some s)
  | _ => Raise (ValidationError field)
  end.

Definition validate_list_str (field : string) (v : pyval) : result (list string) :=
  match v with
  | PList l => traverse (validate_str field) l
  | _ => Raise (ValidationError field)
  end.

Definition validate_datetime (rt : Runtime) (v : pyval) : result datetime.t :=
  match v with
  | PDatetime d => Ok d
  | PStr s =>
      match datetime.parse_iso s with
      | Some d => Ok d
      | None => lenient_datetime rt v
      end
  | _ => lenient_datetime rt v
  end.

(** [Field(...)]: the field is required. *)
Definition required {A} (field : string) (validate : pyval -> result A)
           (v : option pyval) : result A :=
  match v with
  | Some x => validate x
  | None => Raise (ValidationError field)
  end.

(** [Field(default=...)] and [Field(default_factory=...)] *)
Definition with_default {A} (default : A) (validate : pyval -> result A)
           (v : option pyval) : result A :=
  match v with
  | Some x => validate x
  | None => Ok default
  end.

(** [ErrorEntry.model_validate(obj)]; [n] numbers the defaults drawn.  The
    exception names the first field that fails. *)
Definition model_validate (rt : Runtime) (n : nat) (obj : pyval)
  : result ErrorEntry :=
  match obj with
  | PDict items =>
      let* id_ := with_default (uuid4 rt n) (validate_str "id") (lookup "id" items) in
      let* error_text_ :=
        required "error_text" (validate_str "error_text") (lookup "error_text" items) in
      let* message_ :=
        required "message" (validate_str "message") (lookup "message" items) in
      let* created_at_ :=
        with_default (now rt n) (validate_datetime rt) (lookup "created_at" items) in
      let* author_ :=
        with_default None (validate_optional_str "author") (lookup "author" items) in
      let* tags_ :=
        with_default [] (validate_list_str "tags") (lookup "tags" items) in
      Ok {| id := id_; error_text := error_text_; message := message_;
            created_at := created_at_; author := author_; tags := tags_ |}
  | _ => Raise (ValidationError "ErrorEntry")
  end.

(** The constructor of [ErrorEntry] validates its keyword arguments as
    [model_validate] does the items of a [dict]. *)
Definition ErrorEntry_init (rt : Runtime) (n : nat)
           (kwargs : list (string * pyval)) : result ErrorEntry :=
  model_validate rt n (PDict kwargs).

(** [entry.model_dump(mode="json")] *)
Definition model_dump (e : ErrorEntry) : pyval :=
  PDict [ ("id", PStr (id e));
          ("error_text", PStr (error_text e));
          ("message", PStr (message e));
          ("created_at", PStr (datetime.isoformat (created_at e)));
          ("author", match author e with
                     | Some s => PStr s
                     | None => PNone
                     end);
          ("tags", PList (map PStr (tags e))) ].

(** ** Floats of the ranking *)

Definition Qgtb (x y : Q) : bool := negb (Qle_bool x y).

(** [max(x, y)] returns [x] unless [y > x]. *)
Definition py_max (x y : Q) : Q := if Qgtb y x then y else x.

(** [l[:stop]] *)
Definition slice_to {A} (l : list A) (stop : Z) : list A :=
  if (stop <? 0)%Z
  then firstn (List.length l - Z.to_nat (- stop)) l
  else firstn (Z.to_nat stop) l.

(** ** The local backend ([storage/local.py]) *)

Module LocalStorage.

(** The file at [file_path]: absent, not JSON text, or the text of the
    value [json.load] returns.  [json.dump] followed by [json.load] is
    the identity on the values [model_dump] builds; the characters of the
    text are not modelled. *)
Inductive File : Type :=
| Absent
| Unparsable
| Holds (data : pyval).

(** The backend is its file; [writable] tells whether [open(.., "w")]
    succeeds, [writes] counts the completed writes. *)
Record t : Type := {
  file : File;
  writable : bool;
  writes : nat
}.

(** [for entry in data] *)
Definition iterate (data : pyval) : result (list pyval) :=
  match data with
  | PList l => Ok l
  | PDict items => Ok (map (fun kv => PStr (fst kv)) items)
  | PStr s => Ok (map (fun c => PStr (String c EmptyString)) (PyStr.chars s))
  | _ => Raise TypeError
  end.

Section Backend.

Variable rt : Runtime.

(** [[ErrorEntry.model_validate(entry) for entry in data]] *)
Fixpoint validate_all (n : nat) (data : list pyval) : result (list ErrorEntry) :=
  match data with
  | [] => Ok []
  | x :: data' =>
      let* e := model_validate rt n x in
      let* es := validate_all (S n) data' in
      Ok (e :: es)
  end.

Definition _load_entries (self : t) : result (list ErrorEntry) :=
  match file self with
  | Absent => Raise OSError
  | Unparsable => Raise JSONDecodeError
  | Holds data =>
      let* items := iterate data in
      validate_all 0 items
  end.

Definition _save_entries (self : t) (entries : list ErrorEntry) : result t :=
  if writable self
  then Ok {| file := Holds (PList (map model_dump entries));
             writable := true;
             writes := S (writes self) |}
  else Raise OSError.

(** [__init__] through [_ensure_file_exists] (the directories apart). *)
Definition init (self : t) : result t :=
  match file self with
  | Absent => _save_entries self []
  | _ => Ok self
  end.

Definition commit (self : t) (entry : ErrorEntry) : result t :=
  let* entries := _load_entries self in
  _save_entries self (entries ++ [entry]).

(** The score of one entry, as the body of the loop of [search]
    computes it. *)
Definition combined_score (query_lower : string) (entry : ErrorEntry) : Q :=
  let error_lower := PyStr.lower (error_text entry) in
  let score :=
    if PyStr.contains error_lower query_lower ||
       PyStr.contains query_lower error_lower
    then (9 # 10)%Q
    else Difflib.ratio query_lower error_lower in
  let message_score :=
    (Difflib.ratio query_lower (PyStr.lower (message entry)) * (3 # 10))%Q in
  py_max score (score + message_score)%Q.

(** One turn of [for entry in entries]. *)
Definition search_step (query_lower : string) (results : list SearchResult)
           (entry : ErrorEntry) : list SearchResult :=
  let combined := combined_score query_lower entry in
  if Qgtb combined (2 # 10)%Q
  then results ++ [{| entry := entry; score := combined |}]
  else results.

(** [results.sort(key=lambda r: r.score, reverse=True)]: the sort is
    stable, so of two results with equal scores the earlier stays
    first. *)
Fixpoint insert_desc (r : SearchResult) (l : list SearchResult)
  : list SearchResult :=
  match l with
  | [] => [r]
  | x :: l' =>
      if Qgtb (score x) (score r) then x :: insert_desc r l' else r :: l
  end.

Definition sort_desc (l : list SearchResult) : list SearchResult :=
  fold_right insert_desc [] l.

Definition search (self : t) (query : string) (limit : Z)
  : result (list SearchResult) :=
  let* entries := _load_entries self in
  let query_lower := PyStr.lower query in
  let results := fold_left (search_step query_lower) entries [] in
  Ok (slice_to (sort_desc results) limit).

Definition get_all (self : t) : result (list ErrorEntry) :=
  _load_entries self.

Definition delete (self : t) (error_id : string) : result (bool * t) :=
  let* entries := _load_entries self in
  let original_count := List.length entries in
  let entries := filter (fun e => negb (String.eqb (id e) error_id)) entries in
  if List.length entries <? original_count
  then let* self' := _save_entries self entries in Ok (true, self')
  else Ok (false, self).

Definition count (self : t) : result nat :=
  let* entries := _load_entries self in
  Ok (List.length entries).

End Backend.

End LocalStorage.

(** ** The remote backend ([storage/turbopuffer_backend.py]) *)

Module TurbopufferStorage.

(** The row [commit] upserts. *)
Record UpsertRow : Type := {
  u_id : string;
  u_error_text : string;
  u_message : string;
  u_combined_text : string;
  u_created_at : string;
  u_author : string;
  u_tags : string
}.

(** An attribute of a returned row, as [getattr(row, name, default)] sees
    it: not there, [None], or a text. *)
Inductive attr : Type :=
| Missing
| Null
| Text (s : string).

(** A row of [ns.query] or [ns.export]; [r_id] is [str(row.id)], [r_dist]
    the attribute [$dist] when the row has it. *)
Record Row : Type := {
  r_id : string;
  r_error_text : attr;
  r_message : attr;
  r_created_at : attr;
  r_author : attr;
  r_tags : attr;
  r_dist : option Q
}.

(** The namespace of the service: the four calls the backend makes, each
    of which may raise.  [M] is whatever the service holds. *)
Record Medium (M : Type) : Type := {
  write_upsert : M -> UpsertRow -> result M;
  write_deletes : M -> list string -> result M;
  query : M -> string -> Z -> result (list Row);
  export : M -> result (list Row)
}.
Arguments write_upsert {M}.
Arguments write_deletes {M}.
Arguments query {M}.
Arguments export {M}.

(** [",".join(entry.tags) if entry.tags else ""] *)
Definition encode_tags (tags : list string) : string :=
  match tags with
  | [] => EmptyString
  | _ => PyStr.join "," tags
  end.

(** [[t.strip() for t in tags_str.split(",") if t.strip()]] *)
Definition decode_tags (tags_str : string) : list string :=
  map PyStr.strip
      (filter (fun t => PyStr.truthy (PyStr.strip t)) (PyStr.split "," tags_str)).

(** The row of [upsert_rows] in [commit]; [entry.author or ""] sends an
    absent author to the empty text. *)
Definition upsert_row (entry : ErrorEntry) : UpsertRow :=
  let combined_text := (error_text entry ++ " " ++ message entry)%string in
  {| u_id := id entry;
     u_error_text := error_text entry;
     u_message := message entry;
     u_combined_text := combined_text;
     u_created_at := datetime.isoformat (created_at entry);
     u_author := match author entry with
                 | Some s => s
                 | None => EmptyString
                 end;
     u_tags := encode_tags (tags entry) |}.

Definition attr_value (a : attr) : option pyval :=
  match a with
  | Missing => None
  | Null => Some PNone
  | Text s => Some (PStr s)
  end.

Section Backend.

Variable rt : Runtime.
Context {M : Type}.
Variable medium : Medium M.

Record t : Type := {
  ns : M;
  _initialized : bool
}.

Definition _ensure_initialized (self : t) : t :=
  if _initialized self then self
  else {| ns := ns self; _initialized := true |}.

Definition commit (self : t) (entry : ErrorEntry) : result t :=
  let self := _ensure_initialized self in
  let* ns' := write_upsert medium (ns self) (upsert_row entry) in
  Ok {| ns := ns'; _initialized := _initialized self |}.

(** [datetime.fromisoformat(created_at_str)] *)
Definition fromisoformat (s : string) : result datetime.t :=
  match datetime.parse_iso s with
  | Some d => Ok d
  | None => fromisoformat_other rt s
  end.

(** The body shared by the loops of [search] and [get_all]: a row back
    into an [ErrorEntry]; [n] is the position of the row. *)
Definition row_to_entry (n : nat) (row : Row) : result ErrorEntry :=
  let tags_str := match r_tags row with
                  | Text s => s
                  | _ => EmptyString
                  end in
  let tags := decode_tags tags_str in
  let* created_at :=
    match r_created_at row with
    | Text s => if PyStr.truthy s then fromisoformat s else Ok (now rt n)
    | _ => Ok (now rt n)
    end in
  let author := match r_author row with
                | Text s => if String.eqb s EmptyString then PNone else PStr s
                | _ => PNone
                end in
  let text_or_empty a := match attr_value a with
                         | Some v => v
                         | None => PStr EmptyString
                         end in
  ErrorEntry_init rt n
    [ ("id", PStr (r_id row));
      ("error_text", text_or_empty (r_error_text row));
      ("message", text_or_empty (r_message row));
      ("created_at", PDatetime created_at);
      ("author", author);
      ("tags", PList (map PStr tags)) ].

Fixpoint rows_to_entries (n : nat) (rows : list Row) : result (list ErrorEntry) :=
  match rows with
  | [] => Ok []
  | row :: rows' =>
      let* e := row_to_entry n row in
      let* es := rows_to_entries (S n) rows' in
      Ok (e :: es)
  end.

Fixpoint rows_to_results (n : nat) (rows : list Row) : result (list SearchResult) :=
  match rows with
  | [] => Ok []
  | row :: rows' =>
      let* e := row_to_entry n row in
      let score := match r_dist row with
                   | Some d => d
                   | None => 0%Q
                   end in
      let* rs := rows_to_results (S n) rows' in
      Ok ({| entry := e; score := score |} :: rs)
  end.

Definition search (self : t) (query_text : string) (limit : Z)
  : list SearchResult * t :=
  let self := _ensure_initialized self in
  (try_except
     (let* results := query medium (ns self) query_text limit in
      rows_to_results 0 results)
     [],
   self).

Definition get_all (self : t) : list ErrorEntry * t :=
  let self := _ensure_initialized self in
  (try_except
     (let* rows := export medium (ns self) in
      rows_to_entries 0 rows)
     [],
   self).

Definition delete (self : t) (error_id : string) : bool * t :=
  let self := _ensure_initialized self in
  match write_deletes medium (ns self) [error_id] with
  | Ok ns' => (true, {| ns := ns'; _initialized := _initialized self |})
  | Raise _ => (false, self)
  end.

Definition count (self : t) : nat * t :=
  let '(entries, self) := get_all self in
  (List.length entries, self).

End Backend.

Arguments t M : clear implicits.

End TurbopufferStorage.

(** ** A namespace held in memory

    Stands for the service where the backend is run on concrete inputs:
    rows are kept by id, a delete of an id that is not there is accepted
    without complaint (as the service accepts it), and every call raises
    while the namespace is out of reach.  Ranking is by position. *)

Module MemoryMedium.

Import TurbopufferStorage.

Record t : Type := {
  rows : list UpsertRow;
  reachable : bool
}.

Definition guard {A} (m : t) (a : A) : result A :=
  if reachable m then Ok a else Raise (MediumError "unreachable").

Definition has_id (i : string) (u : UpsertRow) : bool := String.eqb (u_id u) i.

Definition to_row (u : UpsertRow) : Row :=
  {| r_id := u_id u;
     r_error_text := Text (u_error_text u);
     r_message := Text (u_message u);
     r_created_at := Text (u_created_at u);
     r_author := Text (u_author u);
     r_tags := Text (u_tags u);
     r_dist := None |}.

Definition medium : Medium t :=
  {| write_upsert := fun m u =>
       guard m {| rows := filter (fun v => negb (has_id (u_id u) v)) (rows m) ++ [u];
                  reachable := reachable m |};
     write_deletes := fun m ids =>
       guard m {| rows := filter (fun v => negb (existsb (fun i => has_id i v) ids))
                                 (rows m);
                  reachable := reachable m |};
     query := fun m text top_k =>
       guard m (slice_to
                  (map to_row
                     (filter (fun v => PyStr.contains (u_combined_text v) text)
                             (rows m)))
                  top_k);
     export := fun m => guard m (map to_row (rows m)) |}.

End MemoryMedium.

(** ** The ranking as the specification words it

    Base score 0.9 when one lowercased text contains the other, else twice
    the total length of the matching blocks over the sum of both lengths;
    the message ratio weighted by 0.3; the greater of the base score and the
    sum. *)

Module Spec.

Definition total_matching_length (a b : string) : nat :=
  list_sum (map Difflib.size
                (Difflib.get_matching_blocks (PyStr.chars a) (PyStr.chars b))).

Definition similarity (a b : string) : Q :=
  (2 * inject_Z (Z.of_nat (total_matching_length a b)) /
   inject_Z (Z.of_nat (String.length a + String.length b)))%Q.

Definition base_score (query : string) (e : ErrorEntry) : Q :=
  let q := PyStr.lower query in
  let t := PyStr.lower (error_text e) in
  if PyStr.contains t q || PyStr.contains q t then (9 # 10)%Q
  else similarity q t.

Definition weighted_message_score (query : string) (e : ErrorEntry) : Q :=
  (Difflib.ratio (PyStr.lower query) (PyStr.lower (message e)) * (3 # 10))%Q.

Definition combined_score (query : string) (e : ErrorEntry) : Q :=
  Qminmax.Qmax (base_score query e)
               (base_score query e + weighted_message_score query e)%Q.

End Spec.

(** ** Equality of entries, decided field by field *)

Definition datetime_eqb (x y : datetime.t) : bool :=
  let a := datetime.get x in
  let b := datetime.get y in
  ((datetime.year a =? datetime.year b) && (datetime.month a =? datetime.month b) &&
   (datetime.day a =? datetime.day b) && (datetime.hour a =? datetime.hour b) &&
   (datetime.minute a =? datetime.minute b) &&
   (datetime.second a =? datetime.second b) &&
   (datetime.microsecond a =? datetime.microsecond b))%N.

Definition option_string_eqb (x y : option string) : bool :=
  match x, y with
  | Some a, Some b => String.eqb a b
  | None, None => true
  | _, _ => false
  end.

Fixpoint list_string_eqb (x y : list string) : bool :=
  match x, y with
  | [], [] => true
  | a :: x', b :: y' => String.eqb a b && list_string_eqb x' y'
  | _, _ => false
  end.

Definition ErrorEntry_eqb (x y : ErrorEntry) : bool :=
  String.eqb (id x) (id y) && String.eqb (error_text x) (error_text y) &&
  String.eqb (message x) (message y) && datetime_eqb (created_at x) (created_at y) &&
  option_string_eqb (author x) (author y) && list_string_eqb (tags x) (tags y).

(** How many records of [l] equal [e]. *)
Definition occurrences (e : ErrorEntry) (l : list ErrorEntry) : nat :=
  List.length (filter (ErrorEntry_eqb e) l).

(** ** What [search] returns, in closed form *)

(** The result a kept entry is given. *)
Definition scored (query_lower : string) (e : ErrorEntry) : SearchResult :=
  {| entry := e; score := LocalStorage.combined_score query_lower e |}.

(** The test [combined_score > 0.2]. *)
Definition relevant (query_lower : string) (e : ErrorEntry) : bool :=
  Qgtb (LocalStorage.combined_score query_lower e) (2 # 10)%Q.

(** Descending by score. *)
Definition by_score_desc (r1 r2 : SearchResult) : Prop := (score r2 <= score r1)%Q.

(** ** Sample data *)

Definition sample_now : datetime.t :=
  datetime.make (datetime.mk 2024 1 15 10 30 0 0) eq_refl.

Definition sample_runtime : Runtime :=
  {| uuid4 := fun n => String (ascii_of_nat (97 + n)) "-generated";
     now := fun _ => sample_now;
     lenient_datetime := fun _ => Raise (ValidationError "created_at");
     fromisoformat_other := fun _ => Raise ValueError |}.

Definition entry_of (i e m : string) (ts : list string) : ErrorEntry :=
  {| id := i; error_text := e; message := m; created_at := sample_now;
     author := None; tags := ts |}.

Definition entry_foo : ErrorEntry :=
  entry_of "id-1" "ModuleNotFoundError: No module named 'foo'"
           "Run pip install foo" ["python"; "import"].

Definition entry_port : ErrorEntry :=
  entry_of "id-2" "Address already in use" "Stop the process bound to port 8000" [].

Definition entry_perm : ErrorEntry :=
  entry_of "id-3" "Permission denied: module cache" "Fix the owner of the cache" ["fs"].

Definition entry_disk : ErrorEntry :=
  entry_of "id-4" "no space" "free a gb" [].

(** A reachable namespace holding the rows of [entries], and the same
    namespace out of reach. *)
Definition namespace_of (entries : list ErrorEntry) (up : bool)
  : TurbopufferStorage.t MemoryMedium.t :=
  {| TurbopufferStorage.ns :=
       {| MemoryMedium.rows := map TurbopufferStorage.upsert_row entries;
          MemoryMedium.reachable := up |};
     TurbopufferStorage._initialized := false |}.

Definition disk_of (entries : list ErrorEntry) : LocalStorage.t :=
  {| LocalStorage.file := LocalStorage.Holds (PList (map model_dump entries));
     LocalStorage.writable := true;
     LocalStorage.writes := 0 |}.

(** ** Invariants of the matcher *)

(** The lengths recorded for the row before [i]: each is the length of a
    run that ends there and began inside the window. *)
Definition dict_ok (alo blo bhi i : nat) (d : Difflib.dict) : Prop :=
  forall j v, In (j, v) d -> alo + v <= i /\ blo + v <= j + 1 /\ j < bhi.

(** The best match so far lies inside the window, above row [i]. *)
Definition best_ok (alo blo bhi i : nat) (m : Difflib.Match) : Prop :=
  let '(bi, bj, bk) := m in
  alo <= bi /\ bi + bk <= i /\ blo <= bj /\ bj + bk <= bhi.

(** A window [(alo, ahi, blo, bhi)] of the queue of [get_matching_blocks]. *)
Definition window_ok (w : nat * nat * nat * nat) : Prop :=
  let '(alo, ahi, blo, bhi) := w in alo <= ahi /\ blo <= bhi.

(** What is left for the loop of [get_matching_blocks] to do. *)
Fixpoint weight (queue : list (nat * nat * nat * nat)) : nat :=
  match queue with
  | [] => 0
  | (alo, ahi, _, _) :: queue' => 2 * (ahi - alo) + 1 + weight queue'
  end.

(** ** Trimmed texts *)

(** A text [lstrip] leaves alone. *)
Definition no_leading_space (s : string) : Prop :=
  match s with
  | EmptyString => True
  | String c _ => PyStr.isspace c = false
  end.

(** ** Measures of the matching blocks *)

(** The summed sizes of a list of blocks, as [ratio] sums them. *)
Definition total_size (l : list Difflib.Match) : nat :=
  fold_right (fun m acc => Difflib.size m + acc) 0 l.

(** The room the queued windows leave in [a] and in [b]. *)
Fixpoint span_a (queue : list (nat * nat * nat * nat)) : nat :=
  match queue with
  | [] => 0
  | (alo, ahi, _, _) :: queue' => (ahi - alo) + span_a queue'
  end.

Fixpoint span_b (queue : list (nat * nat * nat * nat)) : nat :=
  match queue with
  | [] => 0
  | (_, _, blo, bhi) :: queue' => (bhi - blo) + span_b queue'
  end.

(** No character of [s] occurs in [t]. *)
Definition shares_no_char (s t : string) : Prop :=
  forall c, In c (PyStr.chars s) -> ~ In c (PyStr.chars t).

(** ** What the remote backend gives back for what it was given *)

(** The entry as it returns from the remote encoding: an empty author is
    the sentinel of an absent one, the tags go through the comma-joined
    text. *)
Definition reloaded (e : ErrorEntry) : ErrorEntry :=
  {| id := id e;
     error_text := error_text e;
     message := message e;
     created_at := created_at e;
     author := match author e with
               | Some s => if String.eqb s EmptyString then None else Some s
               | None => None
               end;
     tags := TurbopufferStorage.decode_tags (TurbopufferStorage.encode_tags (tags e)) |}.

(** [getattr(row, "$dist", 0.0)] *)
Definition dist_or_zero (row : TurbopufferStorage.Row) : Q :=
  match TurbopufferStorage.r_dist row with
  | Some d => d
  | None => 0%Q
  end.

(** The names of the fields of [ErrorEntry]. *)
Definition is_field (k : string) : bool :=
  existsb (String.eqb k) ["id"; "error_text"; "message"; "created_at"; "author"; "tags"].

(** ** Configuration ([config.py]) *)

Module Config.

Inductive StorageMode : Type := LOCAL | TURBOPUFFER.

Inductive TeamMode : Type := NONE | GIT | SHARED_NAMESPACE.

(** A [Path] is kept by its text. *)
Record ErrorBlobConfig : Type := {
  storage_mode : StorageMode;
  local_file_path : string;
  turbopuffer_api_key : option string;
  turbopuffer_namespace : string;
  turbopuffer_region : string;
  team_mode : TeamMode;
  team_name : option string;
  author_name : option string
}.

(** [x or y] on an optional text: [x] when it is a non-empty text. *)
Definition or_else (x y : option string) : option string :=
  match x with
  | Some s => if PyStr.truthy s then x else y
  | None => y
  end.

(** [get_turbopuffer_api_key(config)]; [env_key] is
    [os.environ.get("TURBOPUFFER_API_KEY")]. *)
Definition get_turbopuffer_api_key (config : ErrorBlobConfig)
           (env_key : option string) : option string :=
  or_else (turbopuffer_api_key config) env_key.

End Config.

(** ** The command line ([cli.py]): the values the commands compute

    What is printed and how it is laid out belongs to the console
    library; the embedding keeps the data handed to it. *)

Module Cli.

(** The backend [get_storage] hands out: the local one, opened on its
    file, or the remote one, bound to a key, a namespace and a region. *)
Inductive Backend : Type :=
| Local (file_path : string) (self : LocalStorage.t)
| Remote (api_key namespace region : string).

(** How a call ends: with a value, with an exception, or with
    [SystemExit(code)]. *)
Inductive Outcome (A : Type) : Type :=
| Return (a : A)
| Raises (e : Exception)
| SystemExit (code : Z).
Arguments Return {A} a.
Arguments Raises {A} e.
Arguments SystemExit {A} code.

(** [get_storage(config)]; [disk] gives the file found at a path. *)
Definition get_storage (config : Config.ErrorBlobConfig) (env_key : option string)
           (disk : string -> LocalStorage.t) : Outcome Backend :=
  match Config.storage_mode config with
  | Config.TURBOPUFFER =>
      match Config.get_turbopuffer_api_key config env_key with
      | Some api_key =>
          if PyStr.truthy api_key
          then Return (Remote api_key (Config.turbopuffer_namespace config)
                              (Config.turbopuffer_region config))
          else SystemExit 1
      | None => SystemExit 1
      end
  | Config.LOCAL =>
      match LocalStorage.init (disk (Config.local_file_path config)) with
      | Ok self => Return (Local (Config.local_file_path config) self)
      | Raise e => Raises e
      end
  end.

(** The entry the [commit] command builds from its options. *)
Definition commit_entry (rt : Runtime) (n : nat) (config : Config.ErrorBlobConfig)
           (error message : string) (tag : list string) : result ErrorEntry :=
  ErrorEntry_init rt n
    [ ("error_text", PStr error);
      ("message", PStr message);
      ("author", match Config.author_name config with
                 | Some s => PStr s
                 | None => PNone
                 end);
      ("tags", PList (map PStr tag)) ].

(** The [commit] command on the local backend. *)
Definition commit_local (rt : Runtime) (n : nat) (config : Config.ErrorBlobConfig)
           (self : LocalStorage.t) (error message : string) (tag : list string)
  : result LocalStorage.t :=
  let* entry := commit_entry rt n config error message tag in
  LocalStorage.commit rt self entry.

(** [s[:n] + ("..." if len(s) > n else "")] *)
Definition ellipsis (n : nat) (s : string) : string :=
  String.append (String.substring 0 n s)
                (if n <? String.length s then "..." else EmptyString).

(** A row of the table of [list]: id, error, fix, and the timestamp the
    date column is printed from. *)
Record ListRow : Type := {
  col_id : string;
  col_error : string;
  col_fix : string;
  col_date : datetime.t
}.

Definition list_row (e : ErrorEntry) : ListRow :=
  {| col_id := String.substring 0 8 (id e);
     col_error := ellipsis 40 (error_text e);
     col_fix := ellipsis 40 (message e);
     col_date := created_at e |}.

(** What [list] shows: the panel for an empty store, or the table with its
    title count, its rows and, when [len(entries) > limit], the closing
    line with [limit] and the count. *)
Inductive ListOutput : Type :=
| NoErrors
| Table (total : nat) (rows : list ListRow) (showing : option (Z * nat)).

Definition list_errors (entries : list ErrorEntry) (limit : Z) : ListOutput :=
  match entries with
  | [] => NoErrors
  | _ =>
      Table (List.length entries)
            (map list_row (slice_to entries limit))
            (if (limit <? Z.of_nat (List.length entries))%Z
             then Some (limit, List.length entries) else None)
  end.

End Cli.

(** ** Sample configurations *)

Definition sample_local_config : Config.ErrorBlobConfig :=
  {| Config.storage_mode := Config.LOCAL;
     Config.local_file_path := "/home/u/.errorblob/errors.json";
     Config.turbopuffer_api_key := None;
     Config.turbopuffer_namespace := "errorblob";
     Config.turbopuffer_region := "gcp-us-central1";
     Config.team_mode := Config.NONE;
     Config.team_name := None;
     Config.author_name := Some "ada" |}.

(** Turbopuffer mode with an empty key in the configuration. *)
Definition sample_remote_config : Config.ErrorBlobConfig :=
  {| Config.storage_mode := Config.TURBOPUFFER;
     Config.local_file_path := "/home/u/.errorblob/errors.json";
     Config.turbopuffer_api_key := Some "";
     Config.turbopuffer_namespace := "errorblob";
     Config.turbopuffer_region := "gcp-us-central1";
     Config.team_mode := Config.NONE;
     Config.team_name := None;
     Config.author_name := None |}.

(** A path where no file is yet. *)
Definition empty_disk (path : string) : LocalStorage.t :=
  {| LocalStorage.file := LocalStorage.Absent;
     LocalStorage.writable := true;
     LocalStorage.writes := 0 |}.

(** A namespace that answers every export and every query with the rows
    it is made of, and accepts every write. *)
Definition canned_medium : TurbopufferStorage.Medium (list TurbopufferStorage.Row) :=
  {| TurbopufferStorage.write_upsert := fun rows _ => Ok rows;
     TurbopufferStorage.write_deletes := fun rows _ => Ok rows;
     TurbopufferStorage.query := fun rows _ _ => Ok rows;
     TurbopufferStorage.export := fun rows => Ok rows |}.

(** A row whose [error_text] is [None]. *)
Definition row_null_text : TurbopufferStorage.Row :=
  {| TurbopufferStorage.r_id := "id-7";
     TurbopufferStorage.r_error_text := TurbopufferStorage.Null;
     TurbopufferStorage.r_message := TurbopufferStorage.Text "fix";
     TurbopufferStorage.r_created_at := TurbopufferStorage.Missing;
     TurbopufferStorage.r_author := TurbopufferStorage.Missing;
     TurbopufferStorage.r_tags := TurbopufferStorage.Missing;
     TurbopufferStorage.r_dist := None |}.

(** A namespace that does not exist until a row is written: writes are
    accepted, a query or an export of the empty namespace raises. *)
Definition fresh_medium
  : TurbopufferStorage.Medium (list TurbopufferStorage.UpsertRow) :=
  {| TurbopufferStorage.write_upsert := fun rows u => Ok (rows ++ [u]);
     TurbopufferStorage.write_deletes := fun rows ids =>
       Ok (filter (fun v => negb (existsb (fun i => MemoryMedium.has_id i v) ids)) rows);
     TurbopufferStorage.query := fun rows _ top_k =>
       match rows with
       | [] => Raise (MediumError "namespace not found")
       | _ => Ok (slice_to (map MemoryMedium.to_row rows) top_k)
       end;
     TurbopufferStorage.export := fun rows =>
       match rows with
       | [] => Raise (MediumError "namespace not found")
       | _ => Ok (map MemoryMedium.to_row rows)
       end |}.

(** * Properties *)

(** ** Loading and saving *)

Section LocalFacts.

Variable rt : Runtime.

Lemma save_ok (self : LocalStorage.t) (entries : list ErrorEntry) :
  LocalStorage.writable self = true ->
  LocalStorage._save_entries self entries =
  Ok {| LocalStorage.file := LocalStorage.Holds (PList (map model_dump entries));
        LocalStorage.writable := true;
        LocalStorage.writes := S (LocalStorage.writes self) |}.
Proof.
  intros Hw. unfold LocalStorage._save_entries. now rewrite Hw.
Qed.

Lemma filter_length_lt_iff {A} (f : A -> bool) (l : list A) :
  List.length (filter f l) < List.length l <-> exists x, In x l /\ f x = false.
Proof.
  induction l as [| a l IH]; simpl.
  - split; [lia | intros (x & [] & _)].
  - pose proof (filter_length_le f l) as Hle.
    destruct (f a) eqn:Ea; simpl.
    + rewrite <- Nat.succ_lt_mono, IH. split.
      * intros (x & Hx & Hf). exists x. auto.
      * intros (x & [-> | Hx] & Hf); [congruence | exists x; auto].
    + split; [intros _; exists a; auto | lia].
Qed.

Lemma filter_all {A} (f : A -> bool) (l : list A) :
  (forall x, In x l -> f x = true) -> filter f l = l.
Proof.
  induction l as [| a l IH]; simpl; intros H; [reflexivity |].
  rewrite (H a (or_introl eq_refl)). f_equal. apply IH. auto.
Qed.

(** On the not-found path of the local [delete] nothing is written. *)
Lemma local_delete_absent (self : LocalStorage.t) (error_id : string)
      (entries : list ErrorEntry) :
  LocalStorage._load_entries rt self = Ok entries ->
  (forall e, In e entries -> id e <> error_id) ->
  LocalStorage.delete rt self error_id = Ok (false, self).
Proof.
  intros Hload Habs. unfold LocalStorage.delete. rewrite Hload. simpl.
  rewrite filter_all.
  - now rewrite Nat.ltb_irrefl.
  - intros e He. apply negb_true_iff, String.eqb_neq. auto.
Qed.

End LocalFacts.

(** ** [isoformat] read back *)

Section Isoformat.

Import datetime.

Lemma digit_val_digit (m : N) : (m < 10)%N -> digit_val (digit m) = Some m.
Proof.
  intros Hm. unfold digit_val, digit.
  rewrite N_ascii_embedding by lia.
  replace ((48 <=? 48 + m)%N) with true by (symmetry; apply N.leb_le; lia).
  replace ((48 + m <=? 57)%N) with true by (symmetry; apply N.leb_le; lia).
  cbn [andb]. f_equal. lia.
Qed.

Lemma read_int_app (w1 w2 : nat) (acc : N) (s : string) :
  read_int (w1 + w2) acc s =
  obind (read_int w1 acc s) (fun '(v, r) => read_int w2 v r).
Proof.
  revert acc s. induction w1 as [| w1 IH]; intros acc s; simpl.
  - reflexivity.
  - destruct s as [| c r]; [reflexivity |].
    destruct (digit_val c); [apply IH | reflexivity].
Qed.

Lemma append_assoc (s1 s2 s3 : string) :
  ((s1 ++ s2) ++ s3 = s1 ++ (s2 ++ s3))%string.
Proof.
  induction s1 as [| c s1 IH]; simpl; [reflexivity | now rewrite IH].
Qed.

Lemma append_empty_r (s : string) : (s ++ "")%string = s.
Proof.
  induction s as [| c s IH]; simpl; [reflexivity | now rewrite IH].
Qed.

(** Reading [w] digits off a zero-filled number gives the number back. *)
Lemma read_int_zfill (w : nat) (n acc : N) (rest : string) :
  (n < 10 ^ N.of_nat w)%N ->
  read_int w acc (zfill w n ++ rest) = Some (acc * 10 ^ N.of_nat w + n, rest)%N.
Proof.
  revert n acc rest. induction w as [| w IH]; intros n acc rest Hn.
  - simpl in *. f_equal. f_equal. lia.
  - replace (S w) with (w + 1) at 1 by lia.
    rewrite read_int_app. simpl zfill. rewrite append_assoc.
    assert (Hpow : (10 ^ N.of_nat (S w) = 10 * 10 ^ N.of_nat w)%N).
    { rewrite Nat2N.inj_succ, N.pow_succ_r'. reflexivity. }
    assert (Hdiv : (n / 10 < 10 ^ N.of_nat w)%N).
    { apply N.Div0.div_lt_upper_bound. lia. }
    rewrite IH by exact Hdiv. cbn [obind read_int append].
    rewrite digit_val_digit by (apply N.mod_upper_bound; lia).
    f_equal. f_equal. rewrite Hpow.
    pose proof (N.div_mod n 10 ltac:(lia)). lia.
Qed.

Lemma check_valid (d : t) : check (get d) = Some d.
Proof.
  destruct d as [r H]. unfold check. simpl.
  generalize (eq_refl (valid r)).
  generalize (valid r) at 2 3.
  intros v e. destruct v.
  - f_equal. f_equal. apply Eqdep_dec.UIP_dec. apply bool_dec.
  - congruence.
Qed.

Lemma valid_bounds (r : fields) :
  valid r = true ->
  (year r < 10 ^ 4 /\ month r < 10 ^ 2 /\ day r < 10 ^ 2 /\ hour r < 10 ^ 2 /\
   minute r < 10 ^ 2 /\ second r < 10 ^ 2 /\ microsecond r < 10 ^ 6)%N.
Proof.
  unfold valid. rewrite !andb_true_iff.
  rewrite !N.leb_le, !N.ltb_lt.
  intros H. repeat match goal with H : _ /\ _ |- _ => destruct H end.
  assert (days_in_month (year r) (month r) <= 31)%N.
  { unfold days_in_month.
    destruct (month r =? 2)%N; [destruct (is_leap (year r)); lia |].
    destruct ((month r =? 4) || (month r =? 6) || (month r =? 9) || (month r =? 11))%N;
      lia. }
  change (10 ^ 4)%N with 10000%N. change (10 ^ 2)%N with 100%N.
  change (10 ^ 6)%N with 1000000%N. lia.
Qed.

(** [isoformat] is read back exactly, microseconds included. *)
Lemma parse_iso_isoformat (d : t) : parse_iso (isoformat d) = Some d.
Proof.
  pose proof (valid_bounds (get d) (in_range d))
    as (Hy & Hmo & Hd & Hh & Hmi & Hs & Hus).
  unfold parse_iso, isoformat.
  rewrite (read_int_zfill 4) by exact Hy. cbn [obind expect append Ascii.eqb Bool.eqb].
  rewrite (read_int_zfill 2) by exact Hmo. cbn [obind expect append Ascii.eqb Bool.eqb].
  rewrite (read_int_zfill 2) by exact Hd. cbn [obind expect append Ascii.eqb Bool.eqb].
  rewrite (read_int_zfill 2) by exact Hh. cbn [obind expect append Ascii.eqb Bool.eqb].
  rewrite (read_int_zfill 2) by exact Hmi. cbn [obind expect append Ascii.eqb Bool.eqb].
  rewrite (read_int_zfill 2) by exact Hs. cbn [obind].
  rewrite !N.mul_0_l, !N.add_0_l.
  destruct (microsecond (get d) =? 0)%N eqn:Eus.
  - apply N.eqb_eq in Eus. cbn [obind].
    replace (mk _ _ _ _ _ _ 0%N) with (get d)
      by (destruct d as [[] ?]; simpl in *; now subst).
    apply check_valid.
  - cbn [obind expect append Ascii.eqb Bool.eqb].
    rewrite <- (append_empty_r (zfill 6 _)).
    rewrite (read_int_zfill 6) by exact Hus. cbn [obind].
    rewrite !N.mul_0_l, !N.add_0_l.
    replace (mk _ _ _ _ _ _ _) with (get d) by (now destruct d as [[] ?]).
    apply check_valid.
Qed.

End Isoformat.

(** ** The persisted layout read back *)

Section RoundTrip.

Variable rt : Runtime.

Lemma traverse_validate_str (field : string) (l : list string) :
  traverse (validate_str field) (map PStr l) = Ok l.
Proof.
  induction l as [| s l IH]; simpl; [reflexivity | now rewrite IH].
Qed.

(** A dumped entry validates to itself, whatever defaults are on offer. *)
Lemma model_validate_dump (n : nat) (e : ErrorEntry) :
  model_validate rt n (model_dump e) = Ok e.
Proof.
  destruct e as [i et m c a ts].
  unfold model_validate, model_dump. cbn [created_at].
  pose proof (parse_iso_isoformat c) as Hc.
  remember (datetime.isoformat c) as iso eqn:Hiso. clear Hiso.
  cbn. rewrite Hc. cbn.
  destruct a as [s |]; cbn; rewrite traverse_validate_str; reflexivity.
Qed.

Lemma validate_all_dump (n : nat) (entries : list ErrorEntry) :
  LocalStorage.validate_all rt n (map model_dump entries) = Ok entries.
Proof.
  revert n. induction entries as [| e l IH]; intros n.
  - reflexivity.
  - cbn [map LocalStorage.validate_all].
    rewrite model_validate_dump. cbn [bind]. now rewrite IH.
Qed.

(** What [_save_entries] leaves in the file is what [_load_entries]
    returns. *)
Lemma load_after_save (self self' : LocalStorage.t) (entries : list ErrorEntry) :
  LocalStorage._save_entries self entries = Ok self' ->
  LocalStorage._load_entries rt self' = Ok entries /\
  LocalStorage.writable self' = true /\
  LocalStorage.writes self' = S (LocalStorage.writes self).
Proof.
  unfold LocalStorage._save_entries.
  destruct (LocalStorage.writable self); [| discriminate].
  intros [= <-]. unfold LocalStorage._load_entries. simpl.
  now rewrite validate_all_dump.
Qed.

End RoundTrip.

(** ** Equality of entries *)

Lemma datetime_eqb_eq (x y : datetime.t) : datetime_eqb x y = true <-> x = y.
Proof.
  split.
  - unfold datetime_eqb. rewrite !andb_true_iff, !N.eqb_eq.
    destruct x as [[] Hx], y as [[] Hy]. simpl.
    intros H. repeat match goal with H : _ /\ _ |- _ => destruct H end. subst.
    f_equal. apply Eqdep_dec.UIP_dec, bool_dec.
  - intros <-. unfold datetime_eqb. now rewrite !N.eqb_refl.
Qed.

Lemma list_string_eqb_eq (x y : list string) : list_string_eqb x y = true <-> x = y.
Proof.
  revert y. induction x as [| a x IH]; intros [| b y]; simpl;
    try (split; [discriminate | discriminate]); [tauto |].
  rewrite andb_true_iff, String.eqb_eq, IH. split.
  - now intros [-> ->].
  - now intros [= -> ->].
Qed.

Lemma ErrorEntry_eqb_eq (x y : ErrorEntry) : ErrorEntry_eqb x y = true <-> x = y.
Proof.
  unfold ErrorEntry_eqb.
  rewrite !andb_true_iff, !String.eqb_eq, datetime_eqb_eq, list_string_eqb_eq.
  destruct x as [i1 e1 m1 c1 a1 t1], y as [i2 e2 m2 c2 a2 t2]. simpl. split.
  - intros (((((-> & ->) & ->) & ->) & Ha) & ->). f_equal.
    destruct a1, a2; simpl in Ha; try discriminate; [| reflexivity].
    now apply String.eqb_eq in Ha; subst.
  - intros [= -> -> -> -> -> ->]. repeat split.
    destruct a2; simpl; [apply String.eqb_refl | reflexivity].
Qed.

Lemma occurrences_app (e : ErrorEntry) (l1 l2 : list ErrorEntry) :
  occurrences e (l1 ++ l2) = occurrences e l1 + occurrences e l2.
Proof.
  unfold occurrences. now rewrite filter_app, length_app.
Qed.

Lemma occurrences_self (e : ErrorEntry) : occurrences e [e] = 1.
Proof.
  unfold occurrences. simpl.
  now rewrite (proj2 (ErrorEntry_eqb_eq e e) eq_refl).
Qed.

Lemma occurrences_absent (e : ErrorEntry) (l : list ErrorEntry) :
  ~ In e l -> occurrences e l = 0.
Proof.
  unfold occurrences. induction l as [| x l IH]; simpl; intros Hn; [reflexivity |].
  destruct (ErrorEntry_eqb e x) eqn:E.
  - apply ErrorEntry_eqb_eq in E. subst. tauto.
  - apply IH. tauto.
Qed.

(** ** The local backend: the stated properties *)

Section LocalClaims.

Variable rt : Runtime.

(** C8. Writing a collection of entries to the file and reading the file
    back returns the very same records: ids, texts, author, tags in their
    order, and the timestamp down to the microsecond. *)
Theorem local_file_round_trip (self self' : LocalStorage.t)
        (entries : list ErrorEntry) :
  LocalStorage._save_entries self entries = Ok self' ->
  LocalStorage._load_entries rt self' = Ok entries.
Proof.
  intros Hsave. now apply (load_after_save rt) in Hsave.
Qed.

(** C7 (amended). After a commit to the local backend, [get_all] is the
    former sequence followed by the new entry: [count] is one greater,
    the earlier entries are all there in their order, the new one is
    last, and the records equal to it are one more than before, exactly
    one when no equal record was stored. *)
Theorem local_commit_appends (self self' : LocalStorage.t) (e : ErrorEntry)
        (entries : list ErrorEntry) :
  LocalStorage._load_entries rt self = Ok entries ->
  LocalStorage.commit rt self e = Ok self' ->
  LocalStorage.get_all rt self' = Ok (entries ++ [e]) /\
  LocalStorage.count rt self = Ok (List.length entries) /\
  LocalStorage.count rt self' = Ok (S (List.length entries)) /\
  occurrences e (entries ++ [e]) = S (occurrences e entries) /\
  (~ In e entries -> occurrences e (entries ++ [e]) = 1).
Proof.
  intros Hload Hcommit.
  unfold LocalStorage.commit in Hcommit. rewrite Hload in Hcommit. simpl in Hcommit.
  apply (load_after_save rt) in Hcommit. destruct Hcommit as (Hload' & _).
  unfold LocalStorage.get_all, LocalStorage.count. rewrite Hload, Hload'. simpl.
  rewrite length_app, occurrences_app, occurrences_self. simpl.
  repeat split; try (f_equal; lia).
  intros Hn. rewrite (occurrences_absent _ _ Hn). reflexivity.
Qed.

(** C10. A local [delete] of an id that no stored entry carries returns
    false and leaves the backend as it was: same file, no write. *)
Theorem local_delete_unknown_id_writes_nothing (self : LocalStorage.t)
        (error_id : string) (entries : list ErrorEntry) :
  LocalStorage._load_entries rt self = Ok entries ->
  (forall e, In e entries -> id e <> error_id) ->
  LocalStorage.delete rt self error_id = Ok (false, self) /\
  (forall self' b, LocalStorage.delete rt self error_id = Ok (b, self') ->
     LocalStorage.file self' = LocalStorage.file self /\
     LocalStorage.writes self' = LocalStorage.writes self).
Proof.
  intros Hload Habs.
  pose proof (local_delete_absent rt self error_id entries Hload Habs) as Hdel.
  split; [exact Hdel |].
  intros self' b Hd. rewrite Hdel in Hd. injection Hd as _ <-. auto.
Qed.

End LocalClaims.

Lemma local_file_round_trip_witness :
  let entries := [entry_foo; entry_port; entry_perm] in
  let self' := {| LocalStorage.file := LocalStorage.Holds (PList (map model_dump entries));
                  LocalStorage.writable := true;
                  LocalStorage.writes := 1 |} in
  LocalStorage._save_entries (disk_of []) entries = Ok self' /\
  LocalStorage._load_entries sample_runtime self' = Ok entries.
Proof.
  split; [reflexivity |].
  apply (local_file_round_trip sample_runtime (disk_of [])). reflexivity.
Defined.

Lemma local_commit_appends_witness :
  let self' := {| LocalStorage.file :=
                    LocalStorage.Holds (PList (map model_dump [entry_foo; entry_port]));
                  LocalStorage.writable := true;
                  LocalStorage.writes := 1 |} in
  LocalStorage.get_all sample_runtime self' = Ok ([entry_foo] ++ [entry_port]) /\
  LocalStorage.count sample_runtime (disk_of [entry_foo]) = Ok 1 /\
  LocalStorage.count sample_runtime self' = Ok 2 /\
  occurrences entry_port ([entry_foo] ++ [entry_port]) = S (occurrences entry_port [entry_foo]) /\
  (~ In entry_port [entry_foo] -> occurrences entry_port ([entry_foo] ++ [entry_port]) = 1).
Proof.
  apply (local_commit_appends sample_runtime (disk_of [entry_foo]) _ entry_port [entry_foo]);
    reflexivity.
Defined.

(** C7, as first stated, fails when the entry committed equals a stored
    one: committing [entry_foo] to a store that holds it leaves two equal
    records, not exactly one. *)
Lemma local_commit_equal_record_twice :
  let self' := {| LocalStorage.file :=
                    LocalStorage.Holds (PList (map model_dump [entry_foo; entry_foo]));
                  LocalStorage.writable := true;
                  LocalStorage.writes := 1 |} in
  LocalStorage.commit sample_runtime (disk_of [entry_foo]) entry_foo = Ok self' /\
  LocalStorage.get_all sample_runtime self' = Ok [entry_foo; entry_foo] /\
  occurrences entry_foo [entry_foo; entry_foo] = 2 /\
  occurrences entry_foo [entry_foo; entry_foo] <> 1.
Proof.
  repeat split; try reflexivity. discriminate.
Qed.

Lemma local_delete_unknown_id_witness :
  LocalStorage.delete sample_runtime (disk_of [entry_foo; entry_port]) "id-9" =
    Ok (false, disk_of [entry_foo; entry_port]) /\
  (forall self' b,
     LocalStorage.delete sample_runtime (disk_of [entry_foo; entry_port]) "id-9" =
       Ok (b, self') ->
     LocalStorage.file self' = LocalStorage.file (disk_of [entry_foo; entry_port]) /\
     LocalStorage.writes self' = LocalStorage.writes (disk_of [entry_foo; entry_port])).
Proof.
  apply (local_delete_unknown_id_writes_nothing sample_runtime _ "id-9"
           [entry_foo; entry_port]).
  - reflexivity.
  - intros e [<- | [<- | []]]; discriminate.
Defined.


(** ** Opening the local backend *)

(** Opening the backend on a path where no file is writes the empty
    collection there; an existing file is left as it is. *)
Lemma init_creates_empty_store (rt : Runtime) (self : LocalStorage.t) :
  LocalStorage.file self = LocalStorage.Absent ->
  LocalStorage.writable self = true ->
  exists self',
    LocalStorage.init self = Ok self' /\
    LocalStorage.get_all rt self' = Ok [] /\
    LocalStorage.count rt self' = Ok 0.
Proof.
  intros Hf Hw. unfold LocalStorage.init. rewrite Hf.
  rewrite (save_ok self [] Hw). eexists. split; [reflexivity |].
  split; reflexivity.
Qed.

(** ** Deleting from the local backend *)

Section LocalDelete.

Variable rt : Runtime.

(** A local [delete] of an id some stored entry carries removes every
    entry with that id, writes the rest and returns true. *)
Lemma local_delete_present (self : LocalStorage.t) (error_id : string)
      (entries : list ErrorEntry) :
  LocalStorage._load_entries rt self = Ok entries ->
  LocalStorage.writable self = true ->
  (exists e, In e entries /\ id e = error_id) ->
  exists self',
    LocalStorage.delete rt self error_id = Ok (true, self') /\
    LocalStorage.get_all rt self' =
      Ok (filter (fun e => negb (String.eqb (id e) error_id)) entries) /\
    (forall e l, LocalStorage.get_all rt self' = Ok l -> In e l -> id e <> error_id) /\
    LocalStorage.delete rt self' error_id = Ok (false, self').
Proof.
  intros Hload Hw (e & He & Hid).
  set (rest := filter (fun e => negb (String.eqb (id e) error_id)) entries).
  assert (Hlt : (List.length rest <? List.length entries) = true).
  { apply Nat.ltb_lt, filter_length_lt_iff. exists e. split; [exact He |].
    apply negb_false_iff, String.eqb_eq, Hid. }
  destruct (LocalStorage._save_entries self rest) as [self' | x] eqn:Hsave.
  2: { rewrite (save_ok self rest Hw) in Hsave. discriminate. }
  exists self'.
  pose proof (load_after_save rt _ _ _ Hsave) as (Hload' & _ & _).
  assert (Hrest : forall x, In x rest -> id x <> error_id).
  { intros x Hx. apply filter_In in Hx. destruct Hx as (_ & Hx).
    now apply negb_true_iff, String.eqb_neq in Hx. }
  repeat split.
  - unfold LocalStorage.delete. rewrite Hload. simpl. fold rest.
    rewrite Hlt, Hsave. reflexivity.
  - exact Hload'.
  - unfold LocalStorage.get_all. rewrite Hload'. intros x l [= <-]. apply Hrest.
  - apply (local_delete_absent rt self' error_id rest Hload' Hrest).
Qed.

End LocalDelete.

(** ** The remote backend: the stated properties *)

Section RemoteClaims.

Variable rt : Runtime.
Context {M : Type}.
Variable medium : TurbopufferStorage.Medium M.

Lemma ns_ensure_initialized (self : TurbopufferStorage.t M) :
  TurbopufferStorage.ns (TurbopufferStorage._ensure_initialized self) =
  TurbopufferStorage.ns self.
Proof.
  unfold TurbopufferStorage._ensure_initialized.
  now destruct (TurbopufferStorage._initialized self).
Qed.

(** C4. On the remote backend an exception of the medium during [commit]
    reaches the caller as that exception, while an exception during
    [search], [get_all] or [delete] is absorbed: the results are the empty
    sequence, the empty sequence and false. *)
Theorem remote_failure_policy (self : TurbopufferStorage.t M) (entry : ErrorEntry)
        (query_text : string) (limit : Z) (error_id : string) :
  (forall x,
     TurbopufferStorage.write_upsert medium (TurbopufferStorage.ns self)
       (TurbopufferStorage.upsert_row entry) = Raise x ->
     TurbopufferStorage.commit medium self entry = Raise x) /\
  (forall x,
     TurbopufferStorage.query medium (TurbopufferStorage.ns self) query_text limit =
       Raise x ->
     fst (TurbopufferStorage.search rt medium self query_text limit) = []) /\
  (forall x,
     TurbopufferStorage.export medium (TurbopufferStorage.ns self) = Raise x ->
     fst (TurbopufferStorage.get_all rt medium self) = []) /\
  (forall x,
     TurbopufferStorage.write_deletes medium (TurbopufferStorage.ns self) [error_id] =
       Raise x ->
     fst (TurbopufferStorage.delete medium self error_id) = false).
Proof.
  unfold TurbopufferStorage.commit, TurbopufferStorage.search,
    TurbopufferStorage.get_all, TurbopufferStorage.delete.
  rewrite ns_ensure_initialized.
  repeat split; intros x H; rewrite H; reflexivity.
Qed.

End RemoteClaims.

Lemma remote_failure_policy_witness :
  let down := namespace_of [entry_foo] false in
  let fresh := {| TurbopufferStorage.ns := @nil TurbopufferStorage.UpsertRow;
                  TurbopufferStorage._initialized := false |} in
  (TurbopufferStorage.commit MemoryMedium.medium down entry_port =
     Raise (MediumError "unreachable") /\
   fst (TurbopufferStorage.search sample_runtime MemoryMedium.medium down "module" 5) = [] /\
   fst (TurbopufferStorage.get_all sample_runtime MemoryMedium.medium down) = [] /\
   fst (TurbopufferStorage.delete MemoryMedium.medium down "id-1") = false) /\
  (TurbopufferStorage.write_upsert fresh_medium [] (TurbopufferStorage.upsert_row entry_port) =
     Ok [TurbopufferStorage.upsert_row entry_port] /\
   fst (TurbopufferStorage.search sample_runtime fresh_medium fresh "module" 5) = [] /\
   fst (TurbopufferStorage.get_all sample_runtime fresh_medium fresh) = []).
Proof.
  split.
  - destruct (remote_failure_policy sample_runtime MemoryMedium.medium
                (namespace_of [entry_foo] false) entry_port "module" 5 "id-1")
      as (H1 & H2 & H3 & H4).
    refine (conj _ (conj _ (conj _ _))).
    + apply (H1 (MediumError "unreachable")). reflexivity.
    + apply (H2 (MediumError "unreachable")). reflexivity.
    + apply (H3 (MediumError "unreachable")). reflexivity.
    + apply (H4 (MediumError "unreachable")). reflexivity.
  - destruct (remote_failure_policy sample_runtime fresh_medium
                {| TurbopufferStorage.ns := @nil TurbopufferStorage.UpsertRow;
                   TurbopufferStorage._initialized := false |}
                entry_port "module" 5 "id-1")
      as (_ & H2 & H3 & _).
    refine (conj _ (conj _ _)).
    + reflexivity.
    + apply (H2 (MediumError "namespace not found")). reflexivity.
    + apply (H3 (MediumError "namespace not found")). reflexivity.
Defined.

(** C6. On both backends [count] is the length of what [get_all] returns;
    the remote one counts the rows it exports through [get_all]. *)
Theorem count_is_length_of_get_all (rt : Runtime) (M : Type)
        (medium : TurbopufferStorage.Medium M)
        (local : LocalStorage.t) (remote : TurbopufferStorage.t M) :
  LocalStorage.count rt local =
    bind (LocalStorage.get_all rt local) (fun entries => Ok (List.length entries)) /\
  TurbopufferStorage.count rt medium remote =
    (List.length (fst (TurbopufferStorage.get_all rt medium remote)),
     snd (TurbopufferStorage.get_all rt medium remote)).
Proof.
  split.
  - reflexivity.
  - unfold TurbopufferStorage.count.
    now destruct (TurbopufferStorage.get_all rt medium remote).
Qed.

(** C3, on the remote backend. The namespace holds the row of [entry_foo]
    only; a [delete] of the id ["id-9"], which no row carries, returns true
    although the rows exported before and after are the same, and a second
    [delete] returns true again. *)
Theorem remote_delete_unknown_id_returns_true :
  let self := namespace_of [entry_foo] true in
  let after := snd (TurbopufferStorage.delete MemoryMedium.medium self "id-9") in
  fst (TurbopufferStorage.get_all sample_runtime MemoryMedium.medium self) = [entry_foo] /\
  fst (TurbopufferStorage.delete MemoryMedium.medium self "id-9") = true /\
  fst (TurbopufferStorage.get_all sample_runtime MemoryMedium.medium after) = [entry_foo] /\
  fst (TurbopufferStorage.delete MemoryMedium.medium after "id-9") = true.
Proof.
  repeat split; reflexivity.
Qed.

(** ** The constructor of an entry *)

Lemma validate_str_cases (field : string) (v : pyval) :
  (exists s, validate_str field v = Ok s) \/
  validate_str field v = Raise (ValidationError field).
Proof.
  destruct v; simpl; eauto.
Qed.

(** C5 (amended). The constructor rejects, with a validation error, a call
    in which [error_text] or [message] is not given; given two texts it
    builds the entry, whatever the texts are, the empty text included. *)
Theorem entry_requires_text_fields (rt : Runtime) (n : nat)
        (kwargs : list (string * pyval)) (e m : string) :
  lookup "error_text" kwargs = None \/ lookup "message" kwargs = None ->
  (exists field, ErrorEntry_init rt n kwargs = Raise (ValidationError field)) /\
  ErrorEntry_init rt n [("error_text", PStr e); ("message", PStr m)] =
    Ok {| id := uuid4 rt n; error_text := e; message := m;
          created_at := now rt n; author := None; tags := [] |}.
Proof.
  intros Hmissing. split; [| reflexivity].
  unfold ErrorEntry_init, model_validate.
  destruct (lookup "id" kwargs) as [v |]; cbn [with_default].
  - destruct (validate_str_cases "id" v) as [(s & ->) | ->]; cbn [bind]; [| eauto].
    destruct (lookup "error_text" kwargs) as [v1 |]; cbn [required]; [| cbn; eauto].
    destruct (validate_str_cases "error_text" v1) as [(s1 & ->) | ->]; cbn [bind]; [| eauto].
    destruct Hmissing as [Hm | Hm]; [discriminate |]. rewrite Hm. cbn. eauto.
  - cbn [bind].
    destruct (lookup "error_text" kwargs) as [v1 |]; cbn [required]; [| cbn; eauto].
    destruct (validate_str_cases "error_text" v1) as [(s1 & ->) | ->]; cbn [bind]; [| eauto].
    destruct Hmissing as [Hm | Hm]; [discriminate |]. rewrite Hm. cbn. eauto.
Qed.

Lemma entry_requires_text_fields_witness :
  (exists field,
     ErrorEntry_init sample_runtime 0 [("error_text", PStr "boom")] =
       Raise (ValidationError field)) /\
  ErrorEntry_init sample_runtime 0 [("error_text", PStr "boom"); ("message", PStr "")] =
    Ok {| id := uuid4 sample_runtime 0; error_text := "boom"; message := "";
          created_at := now sample_runtime 0; author := None; tags := [] |}.
Proof.
  apply (entry_requires_text_fields sample_runtime 0 [("error_text", PStr "boom")]
           "boom" "").
  right. reflexivity.
Defined.

(** C5, as first stated, fails: the constructor accepts an empty
    [error_text] and an empty [message]. *)
Lemma entry_with_empty_texts_is_accepted :
  ErrorEntry_init sample_runtime 0 [("error_text", PStr ""); ("message", PStr "")] =
    Ok {| id := uuid4 sample_runtime 0; error_text := ""; message := "";
          created_at := sample_now; author := None; tags := [] |}.
Proof.
  reflexivity.
Qed.

(** ** Tags through the remote encoding *)

Section Tags.

Import PyStr.

Lemma split_no_sep (sep : ascii) (s : string) :
  has_char sep s = false -> split sep s = [s].
Proof.
  induction s as [| c r IH]; simpl; [reflexivity |].
  intros H. apply orb_false_iff in H. destruct H as (Hc & Hr).
  rewrite Hc, (IH Hr). reflexivity.
Qed.

Lemma split_append_sep (sep : ascii) (s r : string) :
  has_char sep s = false ->
  split sep (s ++ String sep r) = s :: split sep r.
Proof.
  induction s as [| c s IH]; simpl.
  - intros _. now rewrite Ascii.eqb_refl.
  - intros H. apply orb_false_iff in H. destruct H as (Hc & Hs).
    rewrite Hc, (IH Hs). reflexivity.
Qed.

(** Joining on a comma and splitting on it is the identity on a non-empty
    list of comma-free texts. *)
Lemma split_join (x : string) (l : list string) :
  Forall (fun t => has_char "," t = false) (x :: l) ->
  split "," (join "," (x :: l)) = x :: l.
Proof.
  revert x. induction l as [| y l IH]; intros x H.
  - simpl. apply split_no_sep. now inversion H.
  - inversion H as [| ? ? Hx Hl]; subst.
    change (join "," (x :: y :: l)) with (x ++ String "," (join "," (y :: l)))%string.
    rewrite split_append_sep by exact Hx. f_equal. now apply IH.
Qed.

Lemma decode_clean (l : list string) :
  Forall (fun t => t <> EmptyString /\ strip t = t) l ->
  map strip (filter (fun t => truthy (strip t)) l) = l.
Proof.
  induction 1 as [| t l (Hne & Hst) _ IH]; simpl; [reflexivity |].
  rewrite Hst. destruct t as [| c t]; [congruence |]. simpl.
  rewrite Hst, IH. reflexivity.
Qed.

(** C9 (amended). A tag list in which no tag contains a comma, no tag is
    empty and no tag starts or ends with white space comes back from the
    remote encoding (comma-join, then comma-split and trim) exactly as it
    was. *)
Theorem remote_tags_round_trip (tags : list string) :
  Forall (fun t => has_char "," t = false /\ t <> EmptyString /\ strip t = t) tags ->
  TurbopufferStorage.decode_tags (TurbopufferStorage.encode_tags tags) = tags.
Proof.
  intros H. unfold TurbopufferStorage.decode_tags, TurbopufferStorage.encode_tags.
  destruct tags as [| x l]; [reflexivity |].
  rewrite split_join.
  - apply decode_clean. eapply Forall_impl; [| exact H]. simpl. tauto.
  - eapply Forall_impl; [| exact H]. simpl. tauto.
Qed.

End Tags.

Lemma remote_tags_round_trip_witness :
  TurbopufferStorage.decode_tags
    (TurbopufferStorage.encode_tags ["python"; "import error"; "ci"]) =
  ["python"; "import error"; "ci"].
Proof.
  apply (remote_tags_round_trip ["python"; "import error"; "ci"]).
  repeat constructor; discriminate.
Defined.

(** C9, as first stated, fails: a comma-free tag with a leading space
    comes back without the space, and an empty tag does not come back. *)
Lemma remote_tags_trimmed_on_reload :
  Forall (fun t => PyStr.has_char "," t = false) [" urgent"; ""] /\
  TurbopufferStorage.decode_tags (TurbopufferStorage.encode_tags [" urgent"; ""]) =
    ["urgent"] /\
  TurbopufferStorage.decode_tags (TurbopufferStorage.encode_tags [" urgent"; ""]) <>
    [" urgent"; ""].
Proof.
  repeat split; try reflexivity.
  - repeat constructor.
  - discriminate.
Qed.

(** ** Ranking on the local backend *)

Lemma Qgtb_lt (x y : Q) : Qgtb x y = true <-> (y < x)%Q.
Proof.
  unfold Qgtb. rewrite negb_true_iff. split.
  - intros H. apply Qnot_le_lt. intros Hle.
    apply Qle_bool_iff in Hle. congruence.
  - intros H. destruct (Qle_bool x y) eqn:E; [| reflexivity].
    apply Qle_bool_iff in E. exfalso. exact (Qlt_not_le _ _ H E).
Qed.

Lemma Qgtb_le (x y : Q) : Qgtb x y = false <-> (x <= y)%Q.
Proof.
  unfold Qgtb. rewrite negb_false_iff. apply Qle_bool_iff.
Qed.


Section Ranking.

(** The loop of [search] keeps, in the order met, the entries whose score
    clears the threshold. *)
Lemma search_loop (q : string) (entries : list ErrorEntry) (acc : list SearchResult) :
  fold_left (LocalStorage.search_step q) entries acc =
  acc ++ map (scored q) (filter (relevant q) entries).
Proof.
  revert acc. induction entries as [| e l IH]; intros acc; simpl.
  - now rewrite app_nil_r.
  - rewrite IH. unfold LocalStorage.search_step, relevant.
    destruct (Qgtb (LocalStorage.combined_score q e) (2 # 10)); simpl.
    + now rewrite <- app_assoc.
    + reflexivity.
Qed.

Lemma insert_desc_In (r x : SearchResult) (l : list SearchResult) :
  In x (LocalStorage.insert_desc r l) <-> x = r \/ In x l.
Proof.
  induction l as [| y l IH]; simpl.
  - intuition.
  - destruct (Qgtb (score y) (score r)); simpl; rewrite ?IH; intuition.
Qed.

Lemma sort_desc_In (x : SearchResult) (l : list SearchResult) :
  In x (LocalStorage.sort_desc l) <-> In x l.
Proof.
  induction l as [| y l IH]; simpl; [tauto |].
  rewrite insert_desc_In, IH. intuition.
Qed.

Lemma insert_desc_length (r : SearchResult) (l : list SearchResult) :
  List.length (LocalStorage.insert_desc r l) = S (List.length l).
Proof.
  induction l as [| y l IH]; simpl; [reflexivity |].
  destruct (Qgtb (score y) (score r)); simpl; [now rewrite IH | reflexivity].
Qed.

Lemma sort_desc_length (l : list SearchResult) :
  List.length (LocalStorage.sort_desc l) = List.length l.
Proof.
  induction l as [| y l IH]; simpl; [reflexivity |].
  now rewrite insert_desc_length, IH.
Qed.

Lemma insert_desc_sorted (r : SearchResult) (l : list SearchResult) :
  StronglySorted by_score_desc l ->
  StronglySorted by_score_desc (LocalStorage.insert_desc r l).
Proof.
  induction 1 as [| y l Hs IH Hy]; simpl.
  - repeat constructor.
  - destruct (Qgtb (score y) (score r)) eqn:E.
    + constructor; [exact IH |].
      apply Forall_forall. intros x Hx. apply insert_desc_In in Hx.
      destruct Hx as [-> | Hx].
      * apply Qgtb_lt in E. now apply Qlt_le_weak.
      * revert x Hx. now apply Forall_forall.
    + apply Qgtb_le in E.
      constructor; [now constructor |].
      constructor; [exact E |].
      eapply Forall_impl; [| exact Hy].
      intros x Hx. unfold by_score_desc in *. now apply Qle_trans with (score y).
Qed.

(** The sort leaves the results in descending order of score. *)
Lemma sort_desc_sorted (l : list SearchResult) :
  StronglySorted by_score_desc (LocalStorage.sort_desc l).
Proof.
  induction l as [| y l IH]; simpl; [constructor | now apply insert_desc_sorted].
Qed.

Lemma firstn_In {A} (n : nat) (l : list A) (x : A) : In x (firstn n l) -> In x l.
Proof.
  revert n. induction l as [| a l IH]; intros [| n]; simpl; try tauto.
  intros [-> | H]; [now left | right; eauto].
Qed.

Lemma firstn_sorted {A} (R : A -> A -> Prop) (n : nat) (l : list A) :
  StronglySorted R l -> StronglySorted R (firstn n l).
Proof.
  intros H. revert n. induction H as [| a l Hs IH Ha]; intros [| n]; simpl;
    try constructor.
  - apply IH.
  - apply Forall_forall. intros x Hx. apply firstn_In in Hx.
    revert x Hx. now apply Forall_forall.
Qed.

(** A slice [l[:stop]] is a prefix of [l], of at most [stop] elements when
    [stop] is not negative. *)
Lemma slice_to_prefix {A} (l : list A) (stop : Z) :
  exists k, slice_to l stop = firstn k l /\ ((0 <= stop)%Z -> k = Z.to_nat stop).
Proof.
  unfold slice_to. destruct (stop <? 0)%Z eqn:E.
  - eexists. split; [reflexivity |]. apply Z.ltb_lt in E. lia.
  - eexists. split; [reflexivity | reflexivity].
Qed.

End Ranking.

Section Search.

Variable rt : Runtime.

(** [search], once the file is read: the kept entries, sorted, sliced. *)
Lemma search_closed_form (self : LocalStorage.t) (query : string) (limit : Z)
      (entries : list ErrorEntry) :
  LocalStorage._load_entries rt self = Ok entries ->
  LocalStorage.search rt self query limit =
  Ok (slice_to
        (LocalStorage.sort_desc
           (map (scored (PyStr.lower query))
                (filter (relevant (PyStr.lower query)) entries)))
        limit).
Proof.
  intros Hload. unfold LocalStorage.search. rewrite Hload. simpl.
  now rewrite search_loop.
Qed.

(** Every result of [search] is a stored entry with its score, above the
    threshold. *)
Lemma search_results_kept (self : LocalStorage.t) (query : string) (limit : Z)
      (entries : list ErrorEntry) (results : list SearchResult) (r : SearchResult) :
  LocalStorage._load_entries rt self = Ok entries ->
  LocalStorage.search rt self query limit = Ok results ->
  In r results ->
  In (entry r) entries /\
  score r = LocalStorage.combined_score (PyStr.lower query) (entry r) /\
  (2 # 10 < score r)%Q.
Proof.
  intros Hload Hsearch Hr.
  rewrite (search_closed_form _ _ _ _ Hload) in Hsearch. injection Hsearch as <-.
  destruct (slice_to_prefix
              (LocalStorage.sort_desc
                 (map (scored (PyStr.lower query))
                      (filter (relevant (PyStr.lower query)) entries))) limit)
    as (k & Hk & _).
  rewrite Hk in Hr. apply firstn_In, sort_desc_In, in_map_iff in Hr.
  destruct Hr as (e & <- & He). apply filter_In in He. destruct He as (He & Hrel).
  simpl. repeat split; [exact He |]. now apply Qgtb_lt.
Qed.

(** C2 (amended). Once the file is read, [search] returns, for every query
    and every limit, results in descending order of score, each a stored
    entry whose combined score is strictly above 0.2, and none at all (not
    an error) when no stored entry clears the threshold or the store is
    empty; when the limit is not negative, at most [limit] of them. *)
Theorem local_search_ranked (self : LocalStorage.t) (query : string) (limit : Z)
        (entries : list ErrorEntry) :
  LocalStorage._load_entries rt self = Ok entries ->
  exists results,
    LocalStorage.search rt self query limit = Ok results /\
    ((0 <= limit)%Z -> (Z.of_nat (List.length results) <= limit)%Z) /\
    StronglySorted by_score_desc results /\
    (forall r, In r results ->
       In (entry r) entries /\
       score r = LocalStorage.combined_score (PyStr.lower query) (entry r) /\
       (2 # 10 < score r)%Q) /\
    ((forall e, In e entries ->
        ~ (2 # 10 < LocalStorage.combined_score (PyStr.lower query) e)%Q) ->
     results = []).
Proof.
  intros Hload.
  pose proof (search_closed_form self query limit entries Hload) as Hsearch.
  eexists. split; [exact Hsearch |].
  set (kept := filter (relevant (PyStr.lower query)) entries) in *.
  set (sorted := LocalStorage.sort_desc (map (scored (PyStr.lower query)) kept)) in *.
  destruct (slice_to_prefix sorted limit) as (k & Hk & Hlimit).
  repeat split.
  - intros Hpos. rewrite Hk, (Hlimit Hpos).
    pose proof (firstn_le_length (Z.to_nat limit) sorted). lia.
  - rewrite Hk. apply firstn_sorted, sort_desc_sorted.
  - now apply (search_results_kept self query limit entries _ r Hload Hsearch).
  - now apply (search_results_kept self query limit entries _ r Hload Hsearch).
  - now apply (search_results_kept self query limit entries _ r Hload Hsearch).
  - intros Hnone.
    assert (Hkept : kept = []).
    { unfold kept. destruct (filter _ entries) as [| e l] eqn:E; [reflexivity |].
      assert (He : In e (filter (relevant (PyStr.lower query)) entries))
        by (rewrite E; now left).
      apply filter_In in He. destruct He as (He & Hrel).
      apply Qgtb_lt in Hrel. now apply Hnone in He. }
    rewrite Hk. unfold sorted. rewrite Hkept. simpl. apply firstn_nil.
Qed.

End Search.

Lemma local_search_ranked_witness :
  exists results,
    LocalStorage.search sample_runtime (disk_of [entry_foo; entry_port; entry_perm])
                        "ModuleNotFoundError" 2 = Ok results /\
    ((0 <= 2)%Z -> (Z.of_nat (List.length results) <= 2)%Z) /\
    StronglySorted by_score_desc results /\
    (forall r, In r results ->
       In (entry r) [entry_foo; entry_port; entry_perm] /\
       score r = LocalStorage.combined_score (PyStr.lower "ModuleNotFoundError") (entry r) /\
       (2 # 10 < score r)%Q) /\
    ((forall e, In e [entry_foo; entry_port; entry_perm] ->
        ~ (2 # 10 < LocalStorage.combined_score (PyStr.lower "ModuleNotFoundError") e)%Q) ->
     results = []).
Proof.
  apply (local_search_ranked sample_runtime
           (disk_of [entry_foo; entry_port; entry_perm]) "ModuleNotFoundError" 2
           [entry_foo; entry_port; entry_perm]).
  reflexivity.
Defined.

(** C2, as first stated, fails for a negative limit: with three stored
    entries that all clear the threshold, [limit = -1] returns the two best,
    which is more than [limit]. *)
Lemma local_search_negative_limit :
  let results := [ {| entry := entry_foo; score := (3720 # 3800)%Q |};
                   {| entry := entry_perm; score := (7800 # 22500)%Q |} ] in
  LocalStorage.search sample_runtime (disk_of [entry_foo; entry_port; entry_perm])
                      "ModuleNotFoundError" (-1) = Ok results /\
  ~ (Z.of_nat (List.length results) <= -1)%Z.
Proof.
  split; [vm_compute; reflexivity | simpl; lia].
Qed.

(** ** The score against its specification *)








(** ** [SequenceMatcher]: the match stays inside its window, the loop ends *)

Section DifflibFacts.

Import Difflib.

Variables a b : list ascii.

Lemma get_in (d : dict) (key : nat) :
  get d key 0 = 0 \/ In (key, get d key 0) d.
Proof.
  induction d as [| [k v] d IH]; simpl; [now left |].
  destruct (k =? key) eqn:E.
  - apply Nat.eqb_eq in E. subst. right. now left.
  - destruct IH as [IH | IH]; [now left | right; now right].
Qed.

Lemma scan_ok (alo blo bhi i : nat) (js : list nat) (j2len newj2len : dict)
      (best : Match) :
  alo <= i ->
  dict_ok alo blo bhi i j2len ->
  dict_ok alo blo bhi (S i) newj2len ->
  best_ok alo blo bhi (S i) best ->
  dict_ok alo blo bhi (S i) (fst (scan blo bhi i js j2len newj2len best)) /\
  best_ok alo blo bhi (S i) (snd (scan blo bhi i js j2len newj2len best)).
Proof.
  intros Hi Hd. revert newj2len best.
  induction js as [| j js IH]; intros newj2len best Hnew Hbest; simpl.
  - auto.
  - destruct (j <? blo) eqn:Elo; [now apply IH |].
    destruct (bhi <=? j) eqn:Ehi; [simpl; auto |].
    apply Nat.ltb_ge in Elo. apply Nat.leb_gt in Ehi.
    set (k := match j with 0 => 0 | S j' => get j2len j' 0 end + 1).
    assert (Hk : alo + k <= S i /\ blo + k <= j + 1).
    { unfold k. destruct j as [| j']; [lia |].
      destruct (get_in j2len j') as [-> | Hin]; [lia |].
      apply Hd in Hin. lia. }
    destruct best as [[bi bj] bk].
    apply IH.
    + intros j0 v [[= <- <-] | Hin]; [lia | now apply Hnew].
    + destruct (bk <? k); [| exact Hbest]. simpl. lia.
Qed.

Lemma rows_ok (alo blo bhi n i : nat) (st : dict * Match) :
  alo <= i ->
  dict_ok alo blo bhi i (fst st) ->
  best_ok alo blo bhi i (snd st) ->
  best_ok alo blo bhi (i + n) (snd (fold_left (row a b blo bhi) (seq i n) st)).
Proof.
  revert i st. induction n as [| n IH]; intros i st Hi Hd Hb; simpl.
  - now rewrite Nat.add_0_r.
  - replace (i + S n) with (S i + n) by lia.
    assert (Hb' : best_ok alo blo bhi (S i) (snd st)).
    { destruct st as [d [[bi bj] bk]]. simpl in *. lia. }
    assert (Hempty : dict_ok alo blo bhi (S i) []) by (intros ? ? []).
    destruct (scan_ok alo blo bhi i (b2j b (item a i)) (fst st) [] (snd st)
                Hi Hd Hempty Hb') as (Hd1 & Hb1).
    apply IH; [lia | exact Hd1 | exact Hb1].
Qed.

Lemma extend_left_ok (alo blo besti bestj bestsize : nat) :
  alo <= besti -> blo <= bestj ->
  let '(i, j, k) := extend_left a b alo blo besti bestj bestsize in
  alo <= i /\ blo <= j /\ i + k = besti + bestsize /\ j + k = bestj + bestsize.
Proof.
  revert bestj bestsize.
  induction besti as [| i' IH]; intros bestj bestsize Hi Hj; simpl.
  - lia.
  - destruct bestj as [| j']; [lia |].
    destruct ((alo <=? i') && (blo <=? j') && Ascii.eqb (item a i') (item b j')) eqn:E.
    + apply andb_true_iff in E. destruct E as (E & _).
      apply andb_true_iff in E. destruct E as (E1 & E2).
      apply Nat.leb_le in E1. apply Nat.leb_le in E2.
      specialize (IH j' (bestsize + 1) E1 E2).
      destruct (extend_left a b alo blo i' j' (bestsize + 1)) as [[i j] k]. lia.
    + lia.
Qed.

Lemma extend_right_ok (n ahi bhi besti bestj bestsize : nat) :
  besti + bestsize <= ahi -> bestj + bestsize <= bhi ->
  let '(i, j, k) := extend_right a b n ahi bhi besti bestj bestsize in
  i = besti /\ j = bestj /\ bestsize <= k /\ i + k <= ahi /\ j + k <= bhi.
Proof.
  revert bestsize. induction n as [| n IH]; intros bestsize Hi Hj; simpl.
  - lia.
  - destruct ((besti + bestsize <? ahi) && (bestj + bestsize <? bhi) &&
              Ascii.eqb (item a (besti + bestsize)) (item b (bestj + bestsize))) eqn:E.
    + apply andb_true_iff in E. destruct E as (E & _).
      apply andb_true_iff in E. destruct E as (E1 & E2).
      apply Nat.ltb_lt in E1. apply Nat.ltb_lt in E2.
      specialize (IH (bestsize + 1) ltac:(lia) ltac:(lia)).
      destruct (extend_right a b n ahi bhi besti bestj (bestsize + 1)) as [[i j] k]. lia.
    + lia.
Qed.

(** The count handed to [extend_right] never cuts its loop short: any
    larger count gives the same match. *)
Lemma extend_right_fuel (n ahi bhi besti bestj bestsize : nat) :
  ahi - (besti + bestsize) <= n ->
  extend_right a b n ahi bhi besti bestj bestsize =
  extend_right a b (ahi - (besti + bestsize)) ahi bhi besti bestj bestsize.
Proof.
  revert bestsize. induction n as [| n IH]; intros bestsize Hn.
  - now replace (ahi - (besti + bestsize)) with 0 by lia.
  - destruct (ahi - (besti + bestsize)) as [| m] eqn:Em; simpl.
    + replace (besti + bestsize <? ahi) with false
        by (symmetry; apply Nat.ltb_ge; lia).
      reflexivity.
    + destruct ((besti + bestsize <? ahi) && (bestj + bestsize <? bhi) &&
                Ascii.eqb (item a (besti + bestsize)) (item b (bestj + bestsize)));
        [| reflexivity].
      rewrite IH by lia. f_equal. lia.
Qed.

(** [find_longest_match] returns a block inside the window it is given. *)
Lemma find_longest_match_bounds (alo ahi blo bhi : nat) :
  alo <= ahi -> blo <= bhi ->
  let '(i, j, k) := find_longest_match a b alo ahi blo bhi in
  alo <= i /\ i + k <= ahi /\ blo <= j /\ j + k <= bhi.
Proof.
  intros Ha Hb. unfold find_longest_match.
  pose proof (rows_ok alo blo bhi (ahi - alo) alo ([], (alo, blo, 0))
                (le_n alo)) as Hrows.
  simpl in Hrows. specialize (Hrows ltac:(intros ? ? []) ltac:(lia)).
  destruct (fold_left (row a b blo bhi) (seq alo (ahi - alo)) ([], (alo, blo, 0)))
    as [d [[bi bj] bk]].
  simpl in Hrows. replace (alo + (ahi - alo)) with ahi in Hrows by lia.
  pose proof (extend_left_ok alo blo bi bj bk ltac:(lia) ltac:(lia)) as Hl.
  destruct (extend_left a b alo blo bi bj bk) as [[i1 j1] k1].
  pose proof (extend_right_ok (ahi - (i1 + k1)) ahi bhi i1 j1 k1
                ltac:(lia) ltac:(lia)) as Hr.
  destruct (extend_right a b (ahi - (i1 + k1)) ahi bhi i1 j1 k1) as [[i j] k]. lia.
Qed.

(** With a count no smaller than the weight of the queue the loop runs to
    its end. *)
Lemma blocks_loop_returns_from (fuel : nat) (queue : list (nat * nat * nat * nat))
      (matching_blocks : list Match) :
  Forall window_ok queue ->
  weight queue <= fuel ->
  exists l, blocks_loop a b fuel queue matching_blocks = Some l.
Proof.
  revert queue matching_blocks.
  induction fuel as [| fuel IH]; intros queue acc Hq Hw.
  - destruct queue as [| [[[alo ahi] blo] bhi] queue]; simpl in *; [eauto | lia].
  - destruct queue as [| [[[alo ahi] blo] bhi] queue]; [simpl; eauto |].
    inversion Hq as [| ? ? Hwin Hq']; subst.
    simpl in Hwin. destruct Hwin as (Ha & Hb).
    cbn [blocks_loop weight] in *.
    pose proof (find_longest_match_bounds alo ahi blo bhi Ha Hb) as Hflm.
    destruct (find_longest_match a b alo ahi blo bhi) as [[i j] k].
    destruct (k =? 0) eqn:Ek; [apply IH; [exact Hq' | lia] |].
    apply Nat.eqb_neq in Ek.
    destruct ((alo <? i) && (blo <? j)) eqn:E1;
      destruct ((i + k <? ahi) && (j + k <? bhi)) eqn:E2;
      apply IH; repeat (constructor; [simpl; lia |]); try exact Hq';
      rewrite ?andb_true_iff, ?Nat.ltb_lt in *; cbn [weight]; lia.
Qed.

(** [get_matching_blocks] is given count enough: its loop returns. *)
Lemma blocks_loop_returns :
  exists l,
    blocks_loop a b (2 * List.length a + 1) [(0, List.length a, 0, List.length b)] [] =
    Some l.
Proof.
  apply blocks_loop_returns_from.
  - repeat constructor; lia.
  - simpl. lia.
Qed.

End DifflibFacts.

(** ** What the remote [delete] reports *)

(** The remote [delete] returns true exactly when the call to the medium
    does not raise; whether a row had the id plays no part. *)
Lemma remote_delete_reports_the_call (M : Type) (medium : TurbopufferStorage.Medium M)
      (self : TurbopufferStorage.t M) (error_id : string) :
  fst (TurbopufferStorage.delete medium self error_id) = true <->
  exists ns', TurbopufferStorage.write_deletes medium (TurbopufferStorage.ns self)
                [error_id] = Ok ns'.
Proof.
  unfold TurbopufferStorage.delete. rewrite ns_ensure_initialized.
  destruct (TurbopufferStorage.write_deletes medium (TurbopufferStorage.ns self)
              [error_id]) as [ns' | x]; simpl.
  - split; eauto.
  - split; [discriminate | intros (ns' & [=])].
Qed.

(** A row the constructor rejects empties the whole answer of the remote
    [search], as an exception of the medium does. *)
Lemma remote_search_absorbs_bad_row :
  let bad := {| TurbopufferStorage.r_id := "id-7";
                TurbopufferStorage.r_error_text := TurbopufferStorage.Null;
                TurbopufferStorage.r_message := TurbopufferStorage.Text "fix";
                TurbopufferStorage.r_created_at := TurbopufferStorage.Missing;
                TurbopufferStorage.r_author := TurbopufferStorage.Missing;
                TurbopufferStorage.r_tags := TurbopufferStorage.Missing;
                TurbopufferStorage.r_dist := None |} in
  try_except (TurbopufferStorage.rows_to_results sample_runtime 0
                [MemoryMedium.to_row (TurbopufferStorage.upsert_row entry_foo); bad]) [] = [].
Proof.
  reflexivity.
Qed.

(** ** The tags that survive the remote encoding *)

Section TagsConverse.

Import PyStr.

Lemma lstrip_no_leading_space (s : string) : no_leading_space (lstrip s).
Proof.
  induction s as [| c r IH]; simpl; [exact I |].
  destruct (isspace c) eqn:E; [exact IH | exact E].
Qed.

Lemma rstrip_no_leading_space (s : string) :
  no_leading_space s -> no_leading_space (rstrip s).
Proof.
  destruct s as [| c r]; simpl; [auto |]. intros Hc.
  destruct (rstrip r); [rewrite Hc |]; exact Hc.
Qed.

Lemma lstrip_fixed (s : string) : no_leading_space s -> lstrip s = s.
Proof.
  destruct s as [| c r]; simpl; [reflexivity |]. now intros ->.
Qed.

Lemma rstrip_idempotent (s : string) : rstrip (rstrip s) = rstrip s.
Proof.
  induction s as [| c r IH]; simpl; [reflexivity |].
  destruct (rstrip r) as [| d r'] eqn:E.
  - destruct (isspace c) eqn:Ec; simpl; [reflexivity | now rewrite Ec].
  - change (rstrip (String c (String d r'))) with
      (match rstrip (String d r') with
       | EmptyString => if isspace c then EmptyString else String c EmptyString
       | r'' => String c r''
       end).
    now rewrite IH.
Qed.

Lemma strip_idempotent (s : string) : strip (strip s) = strip s.
Proof.
  unfold strip.
  rewrite (lstrip_fixed (rstrip (lstrip s))).
  - apply rstrip_idempotent.
  - apply rstrip_no_leading_space, lstrip_no_leading_space.
Qed.

Lemma lstrip_has_char (c : ascii) (s : string) :
  has_char c s = false -> has_char c (lstrip s) = false.
Proof.
  induction s as [| d r IH]; simpl; [auto |].
  intros H. destruct (isspace d); [| exact H].
  apply orb_false_iff in H. now apply IH.
Qed.

Lemma rstrip_has_char (c : ascii) (s : string) :
  has_char c s = false -> has_char c (rstrip s) = false.
Proof.
  induction s as [| d r IH]; simpl; [auto |].
  intros H. apply orb_false_iff in H. destruct H as (Hd & Hr).
  specialize (IH Hr).
  destruct (rstrip r) as [| e r'].
  - destruct (isspace d); simpl; [reflexivity | now rewrite Hd].
  - change (has_char c (String d (String e r')))
      with (Ascii.eqb d c || has_char c (String e r')).
    now rewrite Hd, IH.
Qed.

Lemma split_pieces (sep : ascii) (s p : string) :
  In p (split sep s) -> has_char sep p = false.
Proof.
  revert p. induction s as [| c r IH]; simpl; intros p.
  - intros [<- | []]. reflexivity.
  - destruct (Ascii.eqb c sep) eqn:E.
    + intros [<- | H]; [reflexivity | now apply IH].
    + destruct (split sep r) as [| h t].
      * intros [<- | []]. simpl. now rewrite E.
      * intros [<- | H].
        -- simpl. rewrite E. apply IH. now left.
        -- apply IH. now right.
Qed.

(** Whatever the decoding returns is comma-free, non-empty and trimmed. *)
Lemma decode_tags_clean (tags_str t : string) :
  In t (TurbopufferStorage.decode_tags tags_str) ->
  has_char "," t = false /\ t <> EmptyString /\ strip t = t.
Proof.
  unfold TurbopufferStorage.decode_tags. intros H.
  apply in_map_iff in H. destruct H as (p & <- & Hp).
  apply filter_In in Hp. destruct Hp as (Hp & Htruthy).
  repeat split.
  - apply rstrip_has_char, lstrip_has_char. exact (split_pieces _ _ _ Hp).
  - intros E. now rewrite E in Htruthy.
  - apply strip_idempotent.
Qed.

(** The condition of the amended C9 is the exact one: a tag list comes
    back unchanged if and only if its tags are comma-free, non-empty and
    trimmed. *)
Lemma remote_tags_round_trip_iff (tags : list string) :
  TurbopufferStorage.decode_tags (TurbopufferStorage.encode_tags tags) = tags <->
  Forall (fun t => has_char "," t = false /\ t <> EmptyString /\ strip t = t) tags.
Proof.
  split.
  - intros H. apply Forall_forall. intros t Ht. rewrite <- H in Ht.
    exact (decode_tags_clean _ _ Ht).
  - intros H. unfold TurbopufferStorage.decode_tags, TurbopufferStorage.encode_tags.
    destruct tags as [| x l]; [reflexivity |].
    rewrite split_join.
    + apply decode_clean. eapply Forall_impl; [| exact H]. simpl. tauto.
    + eapply Forall_impl; [| exact H]. simpl. tauto.
Qed.

End TagsConverse.

(** * Further properties of the local backend *)

Section LocalMore.

Variable rt : Runtime.

(** X1. A local [delete] of an id that some stored entry carries returns
    true, writes the file once, leaves exactly the entries with another id,
    in their order, and a second [delete] of the id returns false. *)
Theorem local_delete_removes_id (self : LocalStorage.t) (error_id : string)
        (entries : list ErrorEntry) :
  LocalStorage._load_entries rt self = Ok entries ->
  LocalStorage.writable self = true ->
  (exists e, In e entries /\ id e = error_id) ->
  exists self',
    LocalStorage.delete rt self error_id = Ok (true, self') /\
    LocalStorage.get_all rt self' =
      Ok (filter (fun e => negb (String.eqb (id e) error_id)) entries) /\
    LocalStorage.writes self' = S (LocalStorage.writes self) /\
    LocalStorage.delete rt self' error_id = Ok (false, self').
Proof.
  intros Hload Hw (e & He & Hid).
  set (rest := filter (fun e => negb (String.eqb (id e) error_id)) entries).
  assert (Hlt : (List.length rest <? List.length entries) = true).
  { apply Nat.ltb_lt, filter_length_lt_iff. exists e. split; [exact He |].
    apply negb_false_iff, String.eqb_eq, Hid. }
  pose proof (save_ok self rest Hw) as Hsave.
  pose proof (load_after_save rt _ _ _ Hsave) as (Hload' & _ & Hwrites).
  eexists. repeat split.
  - unfold LocalStorage.delete. rewrite Hload. simpl. fold rest.
    rewrite Hlt, Hsave. reflexivity.
  - exact Hload'.
  - reflexivity.
  - apply (local_delete_absent rt _ error_id rest Hload').
    intros x Hx. apply filter_In in Hx. destruct Hx as (_ & Hx).
    now apply negb_true_iff, String.eqb_neq in Hx.
Qed.

(** X2. Committing an entry whose id no stored entry carries and then
    deleting that id gives back the collection as it was. *)
Theorem local_commit_then_delete (self : LocalStorage.t) (e : ErrorEntry)
        (entries : list ErrorEntry) :
  LocalStorage._load_entries rt self = Ok entries ->
  LocalStorage.writable self = true ->
  (forall x, In x entries -> id x <> id e) ->
  exists self1 self2,
    LocalStorage.commit rt self e = Ok self1 /\
    LocalStorage.delete rt self1 (id e) = Ok (true, self2) /\
    LocalStorage.get_all rt self2 = Ok entries.
Proof.
  intros Hload Hw Hfresh.
  pose proof (save_ok self (entries ++ [e]) Hw) as Hsave1.
  pose proof (load_after_save rt _ _ _ Hsave1) as (Hload1 & Hw1 & _).
  set (self1 := {| LocalStorage.file :=
                     LocalStorage.Holds (PList (map model_dump (entries ++ [e])));
                   LocalStorage.writable := true;
                   LocalStorage.writes := S (LocalStorage.writes self) |}) in *.
  assert (Hrest : filter (fun x => negb (String.eqb (id x) (id e))) (entries ++ [e])
                  = entries).
  { rewrite filter_app. simpl. rewrite String.eqb_refl. simpl.
    rewrite app_nil_r. apply filter_all.
    intros x Hx. apply negb_true_iff, String.eqb_neq. auto. }
  pose proof (save_ok self1 entries Hw1) as Hsave2.
  pose proof (load_after_save rt _ _ _ Hsave2) as (Hload2 & _ & _).
  exists self1. eexists. repeat split.
  - unfold LocalStorage.commit. rewrite Hload. exact Hsave1.
  - unfold LocalStorage.delete. rewrite Hload1. cbn [bind]. rewrite Hrest.
    replace (List.length entries <? List.length (entries ++ [e])) with true
      by (symmetry; apply Nat.ltb_lt; rewrite length_app; simpl; lia).
    rewrite Hsave2. reflexivity.
  - exact Hload2.
Qed.

(** X3. A smaller limit returns a prefix of what a larger one returns: for
    [0 <= k <= n], [search] with limit [k] gives the first [k] results of
    [search] with limit [n]; with [k = 1], the best one. *)
Theorem local_search_limit_prefix (self : LocalStorage.t) (query : string)
        (k n : Z) (entries : list ErrorEntry) (results : list SearchResult) :
  LocalStorage._load_entries rt self = Ok entries ->
  (0 <= k <= n)%Z ->
  LocalStorage.search rt self query n = Ok results ->
  LocalStorage.search rt self query k = Ok (firstn (Z.to_nat k) results).
Proof.
  intros Hload Hk Hn.
  rewrite (search_closed_form rt self query n entries Hload) in Hn.
  injection Hn as <-.
  rewrite (search_closed_form rt self query k entries Hload). f_equal.
  unfold slice_to.
  replace (k <? 0)%Z with false by (symmetry; apply Z.ltb_ge; lia).
  replace (n <? 0)%Z with false by (symmetry; apply Z.ltb_ge; lia).
  rewrite firstn_firstn. f_equal. lia.
Qed.

End LocalMore.

(** ** Scores are sums, ties keep their order, nothing relevant is lost *)

Lemma inject_nat_nonneg (n : nat) : (0 <= inject_Z (Z.of_nat n))%Q.
Proof.
  unfold Qle. simpl. lia.
Qed.

Lemma calculate_ratio_nonneg (m len : nat) : (0 <= Difflib._calculate_ratio m len)%Q.
Proof.
  unfold Difflib._calculate_ratio. destruct (len =? 0); [discriminate |].
  unfold Qdiv. apply Qmult_le_0_compat.
  - apply Qmult_le_0_compat; [discriminate | apply inject_nat_nonneg].
  - apply Qinv_le_0_compat, inject_nat_nonneg.
Qed.

Lemma ratio_nonneg (a b : string) : (0 <= Difflib.ratio a b)%Q.
Proof.
  apply calculate_ratio_nonneg.
Qed.

Lemma py_max_sum (x m : Q) : (0 <= m)%Q -> (py_max x (x + m) == x + m)%Q.
Proof.
  intros Hm. unfold py_max. destruct (Qgtb (x + m) x) eqn:E; [reflexivity |].
  apply Qgtb_le in E. apply Qle_antisym.
  - rewrite <- (Qplus_0_r x) at 1. apply Qplus_le_compat; [apply Qle_refl | exact Hm].
  - exact E.
Qed.

(** The base score of the loop of [search], before the message is
    counted in. *)
Lemma combined_score_unfold (q : string) (e : ErrorEntry) :
  let error_lower := PyStr.lower (error_text e) in
  let score := if PyStr.contains error_lower q || PyStr.contains q error_lower
               then (9 # 10)%Q else Difflib.ratio q error_lower in
  let message_score := (Difflib.ratio q (PyStr.lower (message e)) * (3 # 10))%Q in
  (LocalStorage.combined_score q e == score + message_score)%Q /\
  (score <= LocalStorage.combined_score q e)%Q.
Proof.
  intros error_lower score message_score.
  assert (Hm : (0 <= message_score)%Q).
  { apply Qmult_le_0_compat; [apply ratio_nonneg | discriminate]. }
  assert (Hsum : (LocalStorage.combined_score q e == score + message_score)%Q).
  { unfold LocalStorage.combined_score. fold error_lower. fold score.
    fold message_score. now apply py_max_sum. }
  split; [exact Hsum |].
  rewrite Hsum. rewrite <- (Qplus_0_r score) at 1.
  apply Qplus_le_compat; [apply Qle_refl | exact Hm].
Qed.

(** X4. The [max] of the score never falls back on the base score alone:
    the combined score is the base score plus 0.3 times the message ratio,
    and so is never below the base score. *)
Theorem combined_score_is_sum (query_lower : string) (e : ErrorEntry) :
  let error_lower := PyStr.lower (error_text e) in
  let score := if PyStr.contains error_lower query_lower ||
                  PyStr.contains query_lower error_lower
               then (9 # 10)%Q else Difflib.ratio query_lower error_lower in
  let message_score :=
    (Difflib.ratio query_lower (PyStr.lower (message e)) * (3 # 10))%Q in
  (LocalStorage.combined_score query_lower e == score + message_score)%Q /\
  (score <= LocalStorage.combined_score query_lower e)%Q.
Proof.
  exact (combined_score_unfold query_lower e).
Qed.

Lemma insert_desc_perm (r : SearchResult) (l : list SearchResult) :
  Permutation (LocalStorage.insert_desc r l) (r :: l).
Proof.
  induction l as [| x l IH]; simpl; [reflexivity |].
  destruct (Qgtb (score x) (score r)); [| reflexivity].
  rewrite IH. apply perm_swap.
Qed.

Lemma sort_desc_perm (l : list SearchResult) : Permutation (LocalStorage.sort_desc l) l.
Proof.
  induction l as [| x l IH]; simpl; [reflexivity |].
  rewrite insert_desc_perm. now constructor.
Qed.




Lemma slice_to_all {A} (l : list A) (stop : Z) :
  (Z.of_nat (List.length l) <= stop)%Z -> slice_to l stop = l.
Proof.
  intros H. unfold slice_to.
  replace (stop <? 0)%Z with false by (symmetry; apply Z.ltb_ge; lia).
  apply firstn_all2. lia.
Qed.

Lemma kept_length (q : string) (entries : list ErrorEntry) :
  List.length (LocalStorage.sort_desc (map (scored q) (filter (relevant q) entries)))
  <= List.length entries.
Proof.
  rewrite sort_desc_length, length_map. apply filter_length_le.
Qed.


Section LocalRanking.

Variable rt : Runtime.

(** X5. With a limit no smaller than the number of stored entries, [search]
    returns each stored entry whose score is above 0.2 once per stored
    record and nothing else: the results are a rearrangement of the scored
    relevant entries. *)
Theorem local_search_complete (self : LocalStorage.t) (query : string) (limit : Z)
        (entries : list ErrorEntry) :
  LocalStorage._load_entries rt self = Ok entries ->
  (Z.of_nat (List.length entries) <= limit)%Z ->
  exists results,
    LocalStorage.search rt self query limit = Ok results /\
    Permutation results
      (map (scored (PyStr.lower query)) (filter (relevant (PyStr.lower query)) entries)).
Proof.
  intros Hload Hlimit. eexists. split.
  - apply (search_closed_form rt self query limit entries Hload).
  - rewrite slice_to_all.
    + apply sort_desc_perm.
    + pose proof (kept_length (PyStr.lower query) entries). lia.
Qed.


(** X7. An entry whose lowercased error text contains the lowercased
    query, or is contained in it, scores at least 0.9 and is returned
    whenever the limit is no smaller than the number of stored entries. *)
Theorem local_search_substring_hit (self : LocalStorage.t) (query : string)
        (limit : Z) (entries : list ErrorEntry) (e : ErrorEntry) :
  LocalStorage._load_entries rt self = Ok entries ->
  (Z.of_nat (List.length entries) <= limit)%Z ->
  In e entries ->
  PyStr.contains (PyStr.lower (error_text e)) (PyStr.lower query) = true \/
  PyStr.contains (PyStr.lower query) (PyStr.lower (error_text e)) = true ->
  exists results r,
    LocalStorage.search rt self query limit = Ok results /\
    In r results /\ entry r = e /\ (9 # 10 <= score r)%Q.
Proof.
  intros Hload Hlimit He Hsub.
  assert (Hge : (9 # 10 <= LocalStorage.combined_score (PyStr.lower query) e)%Q).
  { pose proof (combined_score_unfold (PyStr.lower query) e) as (_ & Hge).
    cbv zeta in Hge.
    replace (PyStr.contains (PyStr.lower (error_text e)) (PyStr.lower query) ||
             PyStr.contains (PyStr.lower query) (PyStr.lower (error_text e)))
      with true in Hge; [exact Hge |].
    symmetry. apply orb_true_iff. exact Hsub. }
  exists (LocalStorage.sort_desc
            (map (scored (PyStr.lower query))
                 (filter (relevant (PyStr.lower query)) entries))).
  exists (scored (PyStr.lower query) e). repeat split.
  - rewrite (search_closed_form rt self query limit entries Hload).
    rewrite slice_to_all; [reflexivity |].
    pose proof (kept_length (PyStr.lower query) entries). lia.
  - apply sort_desc_In, in_map, filter_In. split; [exact He |].
    apply Qgtb_lt. eapply Qlt_le_trans; [| exact Hge]. reflexivity.
  - exact Hge.
Qed.

End LocalRanking.

(** ** [SequenceMatcher]: the blocks fit in both texts *)

Section DifflibBlocks.

Import Difflib.

Variables a b : list ascii.

Lemma total_size_cons (i j k : nat) (l : list Match) :
  total_size ((i, j, k) :: l) = k + total_size l.
Proof.
  reflexivity.
Qed.

Lemma total_size_app (l1 l2 : list Match) :
  total_size (l1 ++ l2) = total_size l1 + total_size l2.
Proof.
  induction l1 as [| m l1 IH]; simpl; [reflexivity | rewrite IH; lia].
Qed.

(** The blocks the loop collects fit in the room its windows leave. *)
Lemma blocks_loop_total (fuel : nat) (queue : list (nat * nat * nat * nat))
      (acc l : list Match) :
  Forall window_ok queue ->
  blocks_loop a b fuel queue acc = Some l ->
  total_size l <= total_size acc + span_a queue /\
  total_size l <= total_size acc + span_b queue.
Proof.
  revert queue acc.
  induction fuel as [| fuel IH]; intros queue acc Hq Hl.
  - destruct queue as [| [[[alo ahi] blo] bhi] queue]; simpl in Hl; [| discriminate].
    injection Hl as <-. simpl. lia.
  - destruct queue as [| [[[alo ahi] blo] bhi] queue].
    { simpl in Hl. injection Hl as <-. simpl. lia. }
    inversion Hq as [| ? ? Hwin Hq']; subst.
    simpl in Hwin. destruct Hwin as (Ha & Hb).
    cbn [blocks_loop span_a span_b] in *.
    pose proof (find_longest_match_bounds a b alo ahi blo bhi Ha Hb) as Hflm.
    destruct (find_longest_match a b alo ahi blo bhi) as [[i j] k].
    destruct (k =? 0) eqn:Ek.
    { apply IH in Hl; [lia | exact Hq']. }
    destruct ((alo <? i) && (blo <? j)) eqn:E1;
      destruct ((i + k <? ahi) && (j + k <? bhi)) eqn:E2;
      apply IH in Hl;
      try (repeat (constructor; [simpl; lia |]); exact Hq');
      rewrite total_size_app, total_size_cons in Hl; cbn [span_a] in Hl;
      cbn [span_b] in Hl; change (total_size []) with 0 in Hl; lia.
Qed.

Lemma insert_match_total (x : Match) (l : list Match) :
  total_size (insert_match x l) = size x + total_size l.
Proof.
  induction l as [| y l IH]; simpl; [reflexivity |].
  destruct (match_ltb x y); simpl; [reflexivity | rewrite IH; lia].
Qed.

Lemma sort_matches_total (l : list Match) : total_size (sort_matches l) = total_size l.
Proof.
  induction l as [| y l IH]; simpl; [reflexivity |].
  now rewrite insert_match_total, IH.
Qed.

Lemma collapse_total (i1 j1 k1 : nat) (blocks : list Match) :
  total_size (collapse i1 j1 k1 blocks) = k1 + total_size blocks.
Proof.
  assert (Hone : forall i j k,
             total_size (if k =? 0 then [] else [(i, j, k)]) = k).
  { intros i j k. destruct (k =? 0) eqn:E.
    - apply Nat.eqb_eq in E. now subst.
    - rewrite total_size_cons. simpl. lia. }
  revert i1 j1 k1. induction blocks as [| [[i2 j2] k2] rest IH]; intros i1 j1 k1.
  - cbn [collapse]. rewrite Hone. simpl. lia.
  - cbn [collapse]. rewrite total_size_cons.
    destruct ((i1 + k1 =? i2) && (j1 + k1 =? j2)).
    + rewrite IH. lia.
    + rewrite total_size_app, IH, Hone. lia.
Qed.

(** The matched characters are no more than either text holds. *)
Lemma matches_bounded :
  matches a b <= List.length a /\ matches a b <= List.length b.
Proof.
  unfold matches. fold (total_size (get_matching_blocks a b)).
  unfold get_matching_blocks.
  rewrite total_size_app, collapse_total, sort_matches_total, total_size_cons.
  change (total_size []) with 0.
  destruct (blocks_loop a b (2 * List.length a + 1)
              [(0, List.length a, 0, List.length b)] []) as [l |] eqn:E.
  - apply blocks_loop_total in E; [| repeat constructor; lia].
    simpl in E. lia.
  - simpl. lia.
Qed.

End DifflibBlocks.

Lemma chars_length (s : string) : List.length (PyStr.chars s) = String.length s.
Proof.
  induction s as [| c s IH]; simpl; [reflexivity | now rewrite IH].
Qed.

(** The ratio of two texts lies between 0 and 1. *)
Lemma ratio_le_1 (s t : string) : (Difflib.ratio s t <= 1)%Q.
Proof.
  unfold Difflib.ratio, Difflib._calculate_ratio.
  destruct (String.length s + String.length t =? 0) eqn:E; [apply Qle_refl |].
  apply Nat.eqb_neq in E.
  destruct (matches_bounded (PyStr.chars s) (PyStr.chars t)) as (Ha & Hb).
  rewrite chars_length in Ha, Hb.
  apply Qle_shift_div_r.
  - unfold Qlt, inject_Z. cbn [Qnum Qden]. lia.
  - unfold Qle, Qmult, inject_Z. cbn [Qnum Qden Pos.mul]. lia.
Qed.

Lemma combined_score_bounds (q : string) (e : ErrorEntry) :
  (0 <= LocalStorage.combined_score q e)%Q /\
  (LocalStorage.combined_score q e <= 13 # 10)%Q.
Proof.
  pose proof (combined_score_unfold q e) as (Hsum & Hge). cbv zeta in Hsum, Hge.
  set (score := if PyStr.contains (PyStr.lower (error_text e)) q ||
                   PyStr.contains q (PyStr.lower (error_text e))
                then (9 # 10)%Q else Difflib.ratio q (PyStr.lower (error_text e))) in *.
  assert (H0 : (0 <= score)%Q).
  { unfold score. destruct (_ || _); [discriminate | apply ratio_nonneg]. }
  assert (H1 : (score <= 1)%Q).
  { unfold score. destruct (_ || _); [discriminate | apply ratio_le_1]. }
  split.
  - now apply Qle_trans with score.
  - rewrite Hsum. change (13 # 10)%Q with (1 + (3 # 10))%Q.
    apply Qplus_le_compat; [exact H1 |].
    rewrite <- (Qmult_1_l (3 # 10)) at 2.
    apply Qmult_le_compat_r; [apply ratio_le_1 | discriminate].
Qed.

(** X8. Every score the local [search] returns lies above 0.2 and at most
    at 1.3 (the base score is at most 1, the weighted message score at
    most 0.3). *)
Theorem local_search_score_range (rt : Runtime) (self : LocalStorage.t)
        (query : string) (limit : Z) (entries : list ErrorEntry)
        (results : list SearchResult) (r : SearchResult) :
  LocalStorage._load_entries rt self = Ok entries ->
  LocalStorage.search rt self query limit = Ok results ->
  In r results ->
  (2 # 10 < score r)%Q /\ (score r <= 13 # 10)%Q.
Proof.
  intros Hload Hsearch Hr.
  destruct (search_results_kept rt self query limit entries results r
              Hload Hsearch Hr) as (_ & Hscore & Hgt).
  split; [exact Hgt |]. rewrite Hscore. apply combined_score_bounds.
Qed.

(** ** [SequenceMatcher]: texts with no character in common *)

Section DifflibDisjoint.

Import Difflib.

Variables a b : list ascii.
Hypothesis Hdisjoint : forall c, In c a -> ~ In c b.

Lemma positions_from_none (i : nat) (s : list ascii) (elt : ascii) :
  ~ In elt s -> positions_from i s elt = [].
Proof.
  revert i. induction s as [| c s IH]; intros i Hn; simpl; [reflexivity |].
  destruct (Ascii.eqb c elt) eqn:E.
  - apply Ascii.eqb_eq in E. subst. exfalso. apply Hn. now left.
  - apply IH. intros H. apply Hn. now right.
Qed.

Lemma rows_find_nothing (blo bhi n i : nat) (best : Match) :
  i + n <= List.length a ->
  fold_left (row a b blo bhi) (seq i n) ([], best) = ([], best).
Proof.
  revert i. induction n as [| n IH]; intros i Hi; simpl; [reflexivity |].
  unfold row at 2. simpl. unfold b2j.
  rewrite positions_from_none.
  - destruct (popular b (item a i)); simpl; apply IH; lia.
  - apply Hdisjoint. apply nth_In. lia.
Qed.

Lemma extend_left_at_corner (alo blo k : nat) :
  extend_left a b alo blo alo blo k = (alo, blo, k).
Proof.
  destruct alo as [| i']; [reflexivity |].
  destruct blo as [| j']; [reflexivity |]. cbn [extend_left].
  replace (S i' <=? i') with false by (symmetry; apply Nat.leb_gt; lia).
  reflexivity.
Qed.

Lemma extend_right_finds_nothing (n ahi bhi alo blo : nat) :
  ahi <= List.length a -> bhi <= List.length b ->
  extend_right a b n ahi bhi alo blo 0 = (alo, blo, 0).
Proof.
  intros Ha Hb. destruct n as [| n]; [reflexivity |]. simpl.
  rewrite !Nat.add_0_r.
  destruct (alo <? ahi) eqn:E1; [| reflexivity].
  destruct (blo <? bhi) eqn:E2; [| reflexivity].
  apply Nat.ltb_lt in E1. apply Nat.ltb_lt in E2.
  destruct (Ascii.eqb (item a alo) (item b blo)) eqn:E; [| reflexivity].
  apply Ascii.eqb_eq in E. exfalso.
  apply (Hdisjoint (item a alo)).
  - apply nth_In. lia.
  - rewrite E. apply nth_In. lia.
Qed.

Lemma find_longest_match_nothing :
  find_longest_match a b 0 (List.length a) 0 (List.length b) = (0, 0, 0).
Proof.
  unfold find_longest_match.
  rewrite rows_find_nothing by lia.
  rewrite extend_left_at_corner.
  now rewrite extend_right_finds_nothing.
Qed.

Lemma blocks_loop_empty_queue (fuel : nat) (acc : list Match) :
  blocks_loop a b fuel [] acc = Some acc.
Proof.
  destruct fuel; reflexivity.
Qed.

(** Two texts with no character in common have no matching block. *)
Lemma matches_nothing : matches a b = 0.
Proof.
  unfold matches, get_matching_blocks.
  replace (2 * List.length a + 1) with (S (2 * List.length a)) by lia.
  cbn [blocks_loop]. rewrite find_longest_match_nothing.
  change (0 =? 0) with true. cbv iota.
  rewrite blocks_loop_empty_queue. reflexivity.
Qed.

End DifflibDisjoint.

Lemma ratio_nothing (s t : string) :
  shares_no_char s t -> s <> EmptyString -> (Difflib.ratio s t == 0)%Q.
Proof.
  intros Hd Hs. unfold Difflib.ratio, Difflib._calculate_ratio.
  rewrite (matches_nothing _ _ Hd).
  destruct (String.length s + String.length t =? 0) eqn:E.
  - apply Nat.eqb_eq in E. destruct s; [congruence | discriminate].
  - unfold Qdiv. simpl inject_Z at 1. rewrite Qmult_0_r, Qmult_0_l. reflexivity.
Qed.

Lemma contains_first_char (hay needle : string) (c : ascii) :
  PyStr.contains hay (String c needle) = true -> In c (PyStr.chars hay).
Proof.
  induction hay as [| d hay IH]; simpl; [discriminate |].
  intros H. apply orb_true_iff in H. destruct H as [H | H].
  - apply andb_true_iff in H. destruct H as (H & _).
    apply Ascii.eqb_eq in H. now left.
  - right. now apply IH.
Qed.

Lemma lower_not_empty (s : string) : s <> EmptyString -> PyStr.lower s <> EmptyString.
Proof.
  destruct s; [congruence | discriminate].
Qed.

(** X9. An entry whose lowercased error text and message share no
    character with the lowercased query, the query and the error text
    being non-empty, scores 0 and is in no result of [search]. *)
Theorem local_search_excludes_unrelated (rt : Runtime) (self : LocalStorage.t)
        (query : string) (limit : Z) (entries : list ErrorEntry)
        (results : list SearchResult) (e : ErrorEntry) :
  LocalStorage._load_entries rt self = Ok entries ->
  LocalStorage.search rt self query limit = Ok results ->
  query <> EmptyString ->
  error_text e <> EmptyString ->
  shares_no_char (PyStr.lower query) (PyStr.lower (error_text e)) ->
  shares_no_char (PyStr.lower query) (PyStr.lower (message e)) ->
  (LocalStorage.combined_score (PyStr.lower query) e == 0)%Q /\
  (forall r, In r results -> entry r <> e).
Proof.
  intros Hload Hsearch Hq He Hde Hdm.
  apply lower_not_empty in Hq. apply lower_not_empty in He.
  assert (Hzero : (LocalStorage.combined_score (PyStr.lower query) e == 0)%Q).
  { pose proof (combined_score_unfold (PyStr.lower query) e) as (Hsum & _).
    cbv zeta in Hsum. rewrite Hsum.
    replace (PyStr.contains (PyStr.lower (error_text e)) (PyStr.lower query) ||
             PyStr.contains (PyStr.lower query) (PyStr.lower (error_text e)))
      with false.
    - rewrite (ratio_nothing _ _ Hde Hq), (ratio_nothing _ _ Hdm Hq). reflexivity.
    - symmetry. apply orb_false_iff. split.
      + destruct (PyStr.lower query) as [| c ql] eqn:Eq; [congruence |].
        destruct (PyStr.contains _ (String c ql)) eqn:E; [| reflexivity].
        apply contains_first_char in E. exfalso.
        apply (Hde c); [now left | exact E].
      + destruct (PyStr.lower (error_text e)) as [| d el] eqn:Ee; [congruence |].
        destruct (PyStr.contains _ (String d el)) eqn:E; [| reflexivity].
        apply contains_first_char in E. exfalso.
        apply (Hde d); [exact E | now left]. }
  split; [exact Hzero |].
  intros r Hr Heq.
  destruct (search_results_kept rt self query limit entries results r
              Hload Hsearch Hr) as (_ & Hscore & Hgt).
  rewrite Hscore, Heq, Hzero in Hgt. discriminate.
Qed.

(** * Further properties: opening, failing, validating *)

(** X10. Opening the local backend where no file is writes the empty
    collection (one write, after which [get_all] is empty); where a file
    is, it is not touched. *)
Theorem local_init_behaviour (rt : Runtime) (self : LocalStorage.t) :
  LocalStorage.writable self = true ->
  exists self',
    LocalStorage.init self = Ok self' /\
    (LocalStorage.file self = LocalStorage.Absent ->
     LocalStorage.get_all rt self' = Ok [] /\
     LocalStorage.writes self' = S (LocalStorage.writes self)) /\
    (LocalStorage.file self <> LocalStorage.Absent -> self' = self).
Proof.
  intros Hw. unfold LocalStorage.init.
  destruct (LocalStorage.file self) eqn:Hf.
  - rewrite (save_ok self [] Hw). eexists. split; [reflexivity |].
    split; [intros _; split; reflexivity | congruence].
  - exists self. split; [reflexivity |]. split; [discriminate | reflexivity].
  - exists self. split; [reflexivity |]. split; [discriminate | reflexivity].
Qed.

Lemma local_init_behaviour_witness :
  let self := {| LocalStorage.file := LocalStorage.Absent;
                 LocalStorage.writable := true;
                 LocalStorage.writes := 0 |} in
  exists self',
    LocalStorage.init self = Ok self' /\
    (LocalStorage.file self = LocalStorage.Absent ->
     LocalStorage.get_all sample_runtime self' = Ok [] /\
     LocalStorage.writes self' = S (LocalStorage.writes self)) /\
    (LocalStorage.file self <> LocalStorage.Absent -> self' = self).
Proof.
  apply (local_init_behaviour sample_runtime). reflexivity.
Defined.

(** X11. When the file cannot be read into entries, every operation of
    the local backend raises the exception of the reading, [commit] and
    [delete] included: a file that does not load is never written over. *)
Theorem local_unreadable_file_raises (rt : Runtime) (self : LocalStorage.t)
        (x : Exception) (e : ErrorEntry) (query : string) (limit : Z)
        (error_id : string) :
  LocalStorage._load_entries rt self = Raise x ->
  LocalStorage.commit rt self e = Raise x /\
  LocalStorage.search rt self query limit = Raise x /\
  LocalStorage.get_all rt self = Raise x /\
  LocalStorage.delete rt self error_id = Raise x /\
  LocalStorage.count rt self = Raise x.
Proof.
  intros Hload.
  unfold LocalStorage.commit, LocalStorage.search, LocalStorage.get_all,
    LocalStorage.delete, LocalStorage.count.
  rewrite Hload. repeat split; reflexivity.
Qed.

Lemma local_unreadable_file_raises_witness :
  let self := {| LocalStorage.file := LocalStorage.Unparsable;
                 LocalStorage.writable := true;
                 LocalStorage.writes := 3 |} in
  LocalStorage.commit sample_runtime self entry_foo = Raise JSONDecodeError /\
  LocalStorage.search sample_runtime self "module" 5 = Raise JSONDecodeError /\
  LocalStorage.get_all sample_runtime self = Raise JSONDecodeError /\
  LocalStorage.delete sample_runtime self "id-1" = Raise JSONDecodeError /\
  LocalStorage.count sample_runtime self = Raise JSONDecodeError.
Proof.
  apply (local_unreadable_file_raises sample_runtime
           {| LocalStorage.file := LocalStorage.Unparsable;
              LocalStorage.writable := true;
              LocalStorage.writes := 3 |} JSONDecodeError entry_foo "module" 5 "id-1").
  reflexivity.
Defined.

(** X12. A commit to a file that cannot be written raises [OSError]
    whatever the file holds, and so does a delete that has something to
    remove; a delete of an unknown id still returns false. *)
Theorem local_read_only_file (rt : Runtime) (self : LocalStorage.t)
        (entries : list ErrorEntry) (e : ErrorEntry) (error_id : string) :
  LocalStorage._load_entries rt self = Ok entries ->
  LocalStorage.writable self = false ->
  LocalStorage.commit rt self e = Raise OSError /\
  ((exists x, In x entries /\ id x = error_id) ->
   LocalStorage.delete rt self error_id = Raise OSError) /\
  ((forall x, In x entries -> id x <> error_id) ->
   LocalStorage.delete rt self error_id = Ok (false, self)).
Proof.
  intros Hload Hw. repeat split.
  - unfold LocalStorage.commit, LocalStorage._save_entries.
    rewrite Hload. simpl. now rewrite Hw.
  - intros (x & Hx & Hid).
    unfold LocalStorage.delete, LocalStorage._save_entries. rewrite Hload. simpl.
    replace (List.length (filter (fun e0 => negb (String.eqb (id e0) error_id)) entries)
             <? List.length entries) with true.
    + now rewrite Hw.
    + symmetry. apply Nat.ltb_lt, filter_length_lt_iff. exists x. split; [exact Hx |].
      apply negb_false_iff, String.eqb_eq, Hid.
  - intros Habs. exact (local_delete_absent rt self error_id entries Hload Habs).
Qed.

Lemma local_read_only_file_witness :
  let self := {| LocalStorage.file :=
                   LocalStorage.Holds (PList (map model_dump [entry_foo]));
                 LocalStorage.writable := false;
                 LocalStorage.writes := 0 |} in
  LocalStorage.commit sample_runtime self entry_port = Raise OSError /\
  ((exists x, In x [entry_foo] /\ id x = "id-1") ->
   LocalStorage.delete sample_runtime self "id-1" = Raise OSError) /\
  ((forall x, In x [entry_foo] -> id x <> "id-1") ->
   LocalStorage.delete sample_runtime self "id-1" = Ok (false, self)).
Proof.
  apply (local_read_only_file sample_runtime
           {| LocalStorage.file :=
                LocalStorage.Holds (PList (map model_dump [entry_foo]));
              LocalStorage.writable := false;
              LocalStorage.writes := 0 |} [entry_foo] entry_port "id-1");
    reflexivity.
Defined.

Lemma lookup_skip (key k : string) (v : pyval) (items : list (string * pyval)) :
  String.eqb k key = false -> lookup key ((k, v) :: items) = lookup key items.
Proof.
  intros H. simpl. now rewrite H.
Qed.

(** X13. Validation looks at the six fields only: an item under any other
    key changes nothing in the outcome. *)
Theorem model_validate_ignores_other_keys (rt : Runtime) (n : nat) (k : string)
        (v : pyval) (items : list (string * pyval)) :
  is_field k = false ->
  model_validate rt n (PDict ((k, v) :: items)) = model_validate rt n (PDict items).
Proof.
  unfold is_field. cbn [existsb]. rewrite !orb_false_iff.
  intros (H1 & H2 & H3 & H4 & H5 & H6 & _).
  unfold model_validate. now rewrite !lookup_skip.
Qed.

Lemma model_validate_ignores_other_keys_witness :
  model_validate sample_runtime 0
    (PDict [("score", PInt 3); ("error_text", PStr "boom"); ("message", PStr "fix")]) =
  model_validate sample_runtime 0
    (PDict [("error_text", PStr "boom"); ("message", PStr "fix")]).
Proof.
  apply (model_validate_ignores_other_keys sample_runtime 0 "score" (PInt 3)).
  reflexivity.
Defined.

(** ** The further local properties on the sample store *)

Lemma local_delete_removes_id_witness :
  exists self',
    LocalStorage.delete sample_runtime (disk_of [entry_foo; entry_port; entry_perm]) "id-2" =
      Ok (true, self') /\
    LocalStorage.get_all sample_runtime self' =
      Ok (filter (fun e => negb (String.eqb (id e) "id-2"))
                 [entry_foo; entry_port; entry_perm]) /\
    LocalStorage.writes self' =
      S (LocalStorage.writes (disk_of [entry_foo; entry_port; entry_perm])) /\
    LocalStorage.delete sample_runtime self' "id-2" = Ok (false, self').
Proof.
  apply (local_delete_removes_id sample_runtime
           (disk_of [entry_foo; entry_port; entry_perm]) "id-2"
           [entry_foo; entry_port; entry_perm]).
  - reflexivity.
  - reflexivity.
  - exists entry_port. split; [right; left; reflexivity | reflexivity].
Defined.

Lemma local_commit_then_delete_witness :
  exists self1 self2,
    LocalStorage.commit sample_runtime (disk_of [entry_foo; entry_port]) entry_perm =
      Ok self1 /\
    LocalStorage.delete sample_runtime self1 (id entry_perm) = Ok (true, self2) /\
    LocalStorage.get_all sample_runtime self2 = Ok [entry_foo; entry_port].
Proof.
  apply (local_commit_then_delete sample_runtime (disk_of [entry_foo; entry_port])
           entry_perm [entry_foo; entry_port]).
  - reflexivity.
  - reflexivity.
  - intros x [<- | [<- | []]]; discriminate.
Defined.

Lemma local_search_limit_prefix_witness :
  LocalStorage.search sample_runtime (disk_of [entry_foo; entry_port; entry_perm])
                      "ModuleNotFoundError" 1 =
  Ok (firstn (Z.to_nat 1)
        [ {| entry := entry_foo; score := (3720 # 3800)%Q |};
          {| entry := entry_perm; score := (7800 # 22500)%Q |};
          {| entry := entry_port; score := (5454 # 22140)%Q |} ]).
Proof.
  apply (local_search_limit_prefix sample_runtime
           (disk_of [entry_foo; entry_port; entry_perm]) "ModuleNotFoundError" 1 5
           [entry_foo; entry_port; entry_perm]).
  - reflexivity.
  - lia.
  - vm_compute. reflexivity.
Defined.

Lemma local_search_complete_witness :
  exists results,
    LocalStorage.search sample_runtime (disk_of [entry_foo; entry_port; entry_disk])
                        "ModuleNotFoundError" 3 = Ok results /\
    Permutation results
      (map (scored (PyStr.lower "ModuleNotFoundError"))
           (filter (relevant (PyStr.lower "ModuleNotFoundError"))
                   [entry_foo; entry_port; entry_disk])).
Proof.
  apply (local_search_complete sample_runtime
           (disk_of [entry_foo; entry_port; entry_disk]) "ModuleNotFoundError" 3
           [entry_foo; entry_port; entry_disk]).
  - reflexivity.
  - simpl. lia.
Defined.


Lemma local_search_substring_hit_witness :
  exists results r,
    LocalStorage.search sample_runtime (disk_of [entry_port; entry_foo])
                        "modulenotfounderror" 2 = Ok results /\
    In r results /\ entry r = entry_foo /\ (9 # 10 <= score r)%Q.
Proof.
  apply (local_search_substring_hit sample_runtime (disk_of [entry_port; entry_foo])
           "modulenotfounderror" 2 [entry_port; entry_foo] entry_foo).
  - reflexivity.
  - simpl. lia.
  - right. left. reflexivity.
  - left. reflexivity.
Defined.

Lemma local_search_score_range_witness :
  (2 # 10 < 3720 # 3800)%Q /\ (3720 # 3800 <= 13 # 10)%Q.
Proof.
  apply (local_search_score_range sample_runtime
           (disk_of [entry_foo; entry_port; entry_perm]) "ModuleNotFoundError" 5
           [entry_foo; entry_port; entry_perm]
           [ {| entry := entry_foo; score := (3720 # 3800)%Q |};
             {| entry := entry_perm; score := (7800 # 22500)%Q |};
             {| entry := entry_port; score := (5454 # 22140)%Q |} ]
           {| entry := entry_foo; score := (3720 # 3800)%Q |}).
  - reflexivity.
  - vm_compute. reflexivity.
  - left. reflexivity.
Defined.

Lemma local_search_excludes_unrelated_witness :
  (LocalStorage.combined_score (PyStr.lower "XYZ") entry_disk == 0)%Q /\
  (forall r, In r [] -> entry r <> entry_disk).
Proof.
  apply (local_search_excludes_unrelated sample_runtime
           (disk_of [entry_disk]) "XYZ" 5 [entry_disk] [] entry_disk).
  - reflexivity.
  - vm_compute. reflexivity.
  - discriminate.
  - discriminate.
  - intros c [<- | [<- | [<- | []]]]; simpl; intuition discriminate.
  - intros c [<- | [<- | [<- | []]]]; simpl; intuition discriminate.
Defined.

(** * Further properties of the remote backend *)

Lemma truthy_append_char (s r : string) (c : ascii) :
  PyStr.truthy (s ++ String c r) = true.
Proof.
  destruct s; reflexivity.
Qed.

Lemma isoformat_truthy (d : datetime.t) : PyStr.truthy (datetime.isoformat d) = true.
Proof.
  unfold datetime.isoformat.
  change (datetime.zfill 4 (datetime.year (datetime.get d)))
    with (datetime.zfill 3 (datetime.year (datetime.get d) / 10)%N ++
          String (datetime.digit (datetime.year (datetime.get d) mod 10)%N) EmptyString)%string.
  rewrite append_assoc. apply truthy_append_char.
Qed.

Section RemoteMore.

Variable rt : Runtime.

(** The row the service holds for a committed entry reads back as the
    entry, up to the two sentinels of the encoding. *)
Lemma row_of_entry_reads_back (n : nat) (e : ErrorEntry) :
  TurbopufferStorage.row_to_entry rt n
    (MemoryMedium.to_row (TurbopufferStorage.upsert_row e)) = Ok (reloaded e).
Proof.
  destruct e as [i et m c a ts].
  unfold TurbopufferStorage.row_to_entry, MemoryMedium.to_row,
    TurbopufferStorage.upsert_row, reloaded.
  cbn [TurbopufferStorage.r_tags TurbopufferStorage.r_created_at
       TurbopufferStorage.r_author TurbopufferStorage.r_error_text
       TurbopufferStorage.r_message TurbopufferStorage.r_id
       TurbopufferStorage.u_tags TurbopufferStorage.u_created_at
       TurbopufferStorage.u_author TurbopufferStorage.u_error_text
       TurbopufferStorage.u_message TurbopufferStorage.u_id
       id error_text message created_at author tags].
  rewrite isoformat_truthy. unfold TurbopufferStorage.fromisoformat.
  rewrite parse_iso_isoformat. cbn [bind].
  unfold ErrorEntry_init, model_validate.
  cbn [lookup String.eqb Ascii.eqb Bool.eqb with_default required bind validate_str
       validate_datetime TurbopufferStorage.attr_value].
  set (ts' := TurbopufferStorage.decode_tags (TurbopufferStorage.encode_tags ts)).
  destruct a as [s |].
  - destruct (String.eqb s EmptyString);
      cbn [validate_optional_str validate_list_str bind];
      rewrite traverse_validate_str; reflexivity.
  - cbn [String.eqb validate_optional_str validate_list_str bind].
    rewrite traverse_validate_str. reflexivity.
Qed.

(** X14. What [commit] writes for an entry, the reading side of [search]
    and [get_all] turns back into the same id, texts and timestamp (to the
    microsecond); an empty author comes back absent and the tags come back
    comma-split and trimmed.  An entry with a non-empty or absent author
    and clean tags comes back exactly. *)
Theorem remote_row_round_trip (n : nat) (e : ErrorEntry) :
  author e <> Some EmptyString ->
  Forall (fun t => PyStr.has_char "," t = false /\ t <> EmptyString /\
                   PyStr.strip t = t) (tags e) ->
  TurbopufferStorage.row_to_entry rt n
    (MemoryMedium.to_row (TurbopufferStorage.upsert_row e)) = Ok e.
Proof.
  intros Ha Ht. rewrite row_of_entry_reads_back. f_equal.
  destruct e as [i et m c a ts]. unfold reloaded. simpl in *.
  f_equal.
  - destruct a as [s |]; [| reflexivity].
    destruct (String.eqb s EmptyString) eqn:E; [| reflexivity].
    apply String.eqb_eq in E. congruence.
  - now apply remote_tags_round_trip_iff.
Qed.

Lemma row_to_entry_id (n : nat) (row : TurbopufferStorage.Row) (e : ErrorEntry) :
  TurbopufferStorage.row_to_entry rt n row = Ok e ->
  id e = TurbopufferStorage.r_id row.
Proof.
  unfold TurbopufferStorage.row_to_entry.
  destruct (match TurbopufferStorage.r_created_at row with
            | TurbopufferStorage.Text s =>
                if PyStr.truthy s then TurbopufferStorage.fromisoformat rt s
                else Ok (now rt n)
            | _ => Ok (now rt n)
            end) as [d | x]; [| discriminate].
  cbn [bind]. unfold ErrorEntry_init, model_validate.
  cbn [lookup String.eqb Ascii.eqb Bool.eqb with_default required bind validate_str].
  destruct (validate_str "error_text" _); [| discriminate]. cbn [bind].
  destruct (validate_str "message" _); [| discriminate]. cbn [bind validate_datetime].
  destruct (validate_optional_str "author" _); [| discriminate]. cbn [bind].
  destruct (validate_list_str "tags" _); [| discriminate]. cbn [bind].
  now intros [= <-].
Qed.

Lemma rows_to_entries_ids (n : nat) (rows : list TurbopufferStorage.Row)
      (entries : list ErrorEntry) :
  TurbopufferStorage.rows_to_entries rt n rows = Ok entries ->
  map id entries = map TurbopufferStorage.r_id rows.
Proof.
  revert n entries. induction rows as [| row rows IH]; intros n entries.
  - simpl. now intros [= <-].
  - cbn [TurbopufferStorage.rows_to_entries].
    destruct (TurbopufferStorage.row_to_entry rt n row) as [e | x] eqn:E;
      [| discriminate].
    cbn [bind].
    destruct (TurbopufferStorage.rows_to_entries rt (S n) rows) as [es | x] eqn:Es;
      [| discriminate].
    cbn [bind]. intros [= <-]. simpl.
    now rewrite (row_to_entry_id _ _ _ E), (IH _ _ Es).
Qed.

Lemma rows_to_results_shape (n : nat) (rows : list TurbopufferStorage.Row)
      (results : list SearchResult) :
  TurbopufferStorage.rows_to_results rt n rows = Ok results ->
  map (fun r => id (entry r)) results = map TurbopufferStorage.r_id rows /\
  map score results = map dist_or_zero rows.
Proof.
  revert n results. induction rows as [| row rows IH]; intros n results.
  - simpl. now intros [= <-].
  - cbn [TurbopufferStorage.rows_to_results].
    destruct (TurbopufferStorage.row_to_entry rt n row) as [e | x] eqn:E;
      [| discriminate].
    cbn [bind].
    destruct (TurbopufferStorage.rows_to_results rt (S n) rows) as [rs | x] eqn:Es;
      [| discriminate].
    cbn [bind]. intros [= <-]. simpl.
    destruct (IH _ _ Es) as (H1 & H2).
    now rewrite (row_to_entry_id _ _ _ E), H1, H2.
Qed.

Context {M : Type}.
Variable medium : TurbopufferStorage.Medium M.

(** X15. The remote [get_all] is all or nothing: when the export succeeds
    it returns either one entry per exported row, in export order and
    with the ids of the rows, or, as soon as one row does not convert, the
    empty list. *)
Theorem remote_get_all_all_or_nothing (self : TurbopufferStorage.t M)
        (rows : list TurbopufferStorage.Row) :
  TurbopufferStorage.export medium (TurbopufferStorage.ns self) = Ok rows ->
  (forall entries, TurbopufferStorage.rows_to_entries rt 0 rows = Ok entries ->
     fst (TurbopufferStorage.get_all rt medium self) = entries /\
     map id entries = map TurbopufferStorage.r_id rows) /\
  (forall x, TurbopufferStorage.rows_to_entries rt 0 rows = Raise x ->
     fst (TurbopufferStorage.get_all rt medium self) = []).
Proof.
  intros Hexp. unfold TurbopufferStorage.get_all.
  rewrite ns_ensure_initialized, Hexp. cbn [bind fst]. split.
  - intros entries He. rewrite He. split; [reflexivity |].
    exact (rows_to_entries_ids 0 rows entries He).
  - intros x Hx. now rewrite Hx.
Qed.

(** X16. The remote [search] neither filters nor sorts: when every row
    of the answer converts, the results are the rows in the order of the
    service, each with the id of its row and with its [$dist] as score,
    0 when the row has none. *)
Theorem remote_search_keeps_service_order (self : TurbopufferStorage.t M)
        (query_text : string) (limit : Z) (rows : list TurbopufferStorage.Row)
        (results : list SearchResult) :
  TurbopufferStorage.query medium (TurbopufferStorage.ns self) query_text limit =
    Ok rows ->
  TurbopufferStorage.rows_to_results rt 0 rows = Ok results ->
  fst (TurbopufferStorage.search rt medium self query_text limit) = results /\
  map (fun r => id (entry r)) results = map TurbopufferStorage.r_id rows /\
  map score results = map dist_or_zero rows.
Proof.
  intros Hq Hr. unfold TurbopufferStorage.search.
  rewrite ns_ensure_initialized, Hq. cbn [bind fst]. rewrite Hr.
  split; [reflexivity |]. exact (rows_to_results_shape 0 rows results Hr).
Qed.

End RemoteMore.

Lemma remote_row_round_trip_witness :
  TurbopufferStorage.row_to_entry sample_runtime 0
    (MemoryMedium.to_row (TurbopufferStorage.upsert_row entry_foo)) = Ok entry_foo.
Proof.
  apply (remote_row_round_trip sample_runtime 0 entry_foo).
  - discriminate.
  - repeat constructor; discriminate.
Defined.

Lemma remote_get_all_all_or_nothing_witness :
  let self := namespace_of [entry_foo; entry_port] true in
  let rows := map MemoryMedium.to_row
                  (map TurbopufferStorage.upsert_row [entry_foo; entry_port]) in
  (forall entries,
     TurbopufferStorage.rows_to_entries sample_runtime 0 rows = Ok entries ->
     fst (TurbopufferStorage.get_all sample_runtime MemoryMedium.medium self) = entries /\
     map id entries = map TurbopufferStorage.r_id rows) /\
  (forall x,
     TurbopufferStorage.rows_to_entries sample_runtime 0 rows = Raise x ->
     fst (TurbopufferStorage.get_all sample_runtime MemoryMedium.medium self) = []).
Proof.
  apply (remote_get_all_all_or_nothing sample_runtime MemoryMedium.medium
           (namespace_of [entry_foo; entry_port] true)).
  reflexivity.
Defined.

Lemma remote_search_keeps_service_order_witness :
  let self := namespace_of [entry_foo; entry_port; entry_perm] true in
  let rows := map MemoryMedium.to_row
                  (map TurbopufferStorage.upsert_row [entry_foo; entry_perm]) in
  let results := [ {| entry := entry_foo; score := 0%Q |};
                   {| entry := entry_perm; score := 0%Q |} ] in
  fst (TurbopufferStorage.search sample_runtime MemoryMedium.medium self "module" 5) =
    results /\
  map (fun r => id (entry r)) results = map TurbopufferStorage.r_id rows /\
  map score results = map dist_or_zero rows.
Proof.
  apply (remote_search_keeps_service_order sample_runtime MemoryMedium.medium
           (namespace_of [entry_foo; entry_port; entry_perm] true) "module" 5).
  - reflexivity.
  - reflexivity.
Defined.

(** X17. The encoding of the tags loses a tag list as soon as one tag
    contains a comma, is empty, or starts or ends with white space: such a
    list never comes back as it was. *)
Theorem remote_tags_lossy_cases (tags : list string) (t : string) :
  In t tags ->
  PyStr.has_char "," t = true \/ t = EmptyString \/ PyStr.strip t <> t ->
  TurbopufferStorage.decode_tags (TurbopufferStorage.encode_tags tags) <> tags.
Proof.
  intros Ht Hbad Heq. rewrite <- Heq in Ht.
  destruct (decode_tags_clean _ _ Ht) as (H1 & H2 & H3).
  destruct Hbad as [H | [H | H]]; congruence.
Qed.

Lemma remote_tags_lossy_cases_witness :
  TurbopufferStorage.decode_tags
    (TurbopufferStorage.encode_tags ["build"; "c,c++"]) <> ["build"; "c,c++"].
Proof.
  apply (remote_tags_lossy_cases ["build"; "c,c++"] "c,c++").
  - right. left. reflexivity.
  - left. reflexivity.
Defined.

(** * Properties of the dispatcher and of the commands *)

(** X18. In turbopuffer mode [get_storage] binds the remote backend to
    the key of the configuration when that is a non-empty text, else to a
    non-empty key of the environment, and exits with code 1 when neither
    gives a non-empty text; no file is opened. *)
Theorem get_storage_remote_key (config : Config.ErrorBlobConfig)
        (env_key : option string) (disk : string -> LocalStorage.t) :
  Config.storage_mode config = Config.TURBOPUFFER ->
  let usable k := match k with
                  | Some s => PyStr.truthy s
                  | None => false
                  end in
  let remote k := Cli.Return (Cli.Remote k (Config.turbopuffer_namespace config)
                                         (Config.turbopuffer_region config)) in
  (forall s, Config.turbopuffer_api_key config = Some s -> PyStr.truthy s = true ->
     Cli.get_storage config env_key disk = remote s) /\
  (forall s, usable (Config.turbopuffer_api_key config) = false ->
     env_key = Some s -> PyStr.truthy s = true ->
     Cli.get_storage config env_key disk = remote s) /\
  (usable (Config.turbopuffer_api_key config) = false -> usable env_key = false ->
   Cli.get_storage config env_key disk = Cli.SystemExit 1).
Proof.
  intros Hmode usable remote. unfold Cli.get_storage, Config.get_turbopuffer_api_key,
    Config.or_else. rewrite Hmode. subst usable remote. cbv beta.
  repeat split.
  - intros s Hk Hs. now rewrite Hk, Hs, Hs.
  - intros s Hk -> Hs.
    destruct (Config.turbopuffer_api_key config) as [k |].
    + now rewrite Hk, Hs.
    + now rewrite Hs.
  - intros Hk He.
    destruct (Config.turbopuffer_api_key config) as [k |].
    + rewrite Hk. destruct env_key as [s |]; [now rewrite He | reflexivity].
    + destruct env_key as [s |]; [now rewrite He | reflexivity].
Qed.

(** X19. In local mode [get_storage] never exits and never looks at a
    key: on a writable path it returns the local backend, on an empty
    collection it has just written when no file was there, on the file
    untouched otherwise. *)
Theorem get_storage_local (rt : Runtime) (config : Config.ErrorBlobConfig)
        (env_key : option string) (disk : string -> LocalStorage.t) :
  Config.storage_mode config = Config.LOCAL ->
  LocalStorage.writable (disk (Config.local_file_path config)) = true ->
  exists self,
    Cli.get_storage config env_key disk =
      Cli.Return (Cli.Local (Config.local_file_path config) self) /\
    (LocalStorage.file (disk (Config.local_file_path config)) = LocalStorage.Absent ->
     LocalStorage.get_all rt self = Ok []) /\
    (LocalStorage.file (disk (Config.local_file_path config)) <> LocalStorage.Absent ->
     self = disk (Config.local_file_path config)).
Proof.
  intros Hmode Hw. unfold Cli.get_storage. rewrite Hmode.
  unfold LocalStorage.init.
  destruct (LocalStorage.file (disk (Config.local_file_path config))) eqn:Hf.
  - rewrite (save_ok _ [] Hw). eexists. split; [reflexivity |].
    split; [reflexivity | congruence].
  - eexists. split; [reflexivity |]. split; [discriminate | reflexivity].
  - eexists. split; [reflexivity |]. split; [discriminate | reflexivity].
Qed.

Lemma commit_entry_ok (rt : Runtime) (n : nat) (config : Config.ErrorBlobConfig)
      (error message : string) (tag : list string) :
  Cli.commit_entry rt n config error message tag =
  Ok {| id := uuid4 rt n; error_text := error; message := message;
        created_at := now rt n; author := Config.author_name config; tags := tag |}.
Proof.
  unfold Cli.commit_entry, ErrorEntry_init, model_validate.
  cbn [lookup String.eqb Ascii.eqb Bool.eqb with_default required bind validate_str].
  destruct (Config.author_name config);
    cbn [validate_optional_str validate_list_str bind];
    rewrite traverse_validate_str; reflexivity.
Qed.

(** X20. The [commit] command on the local backend never fails on its
    texts, the empty ones included: it stores, after the entries already
    there, an entry with exactly the given error, message and tags, the
    author of the configuration, a generated id and the current time. *)
Theorem commit_command_appends (rt : Runtime) (n : nat)
        (config : Config.ErrorBlobConfig) (self : LocalStorage.t)
        (error message : string) (tag : list string) (entries : list ErrorEntry) :
  LocalStorage._load_entries rt self = Ok entries ->
  LocalStorage.writable self = true ->
  exists self',
    Cli.commit_local rt n config self error message tag = Ok self' /\
    LocalStorage.get_all rt self' =
      Ok (entries ++
          [{| id := uuid4 rt n; error_text := error; message := message;
              created_at := now rt n; author := Config.author_name config;
              tags := tag |}]).
Proof.
  intros Hload Hw. unfold Cli.commit_local. rewrite commit_entry_ok. cbn [bind].
  unfold LocalStorage.commit. rewrite Hload. cbn [bind].
  rewrite (save_ok _ _ Hw). eexists. split; [reflexivity |].
  unfold LocalStorage.get_all, LocalStorage._load_entries. simpl.
  now rewrite validate_all_dump.
Qed.

Lemma string_length_append (s t : string) :
  String.length (s ++ t) = String.length s + String.length t.
Proof.
  induction s as [| c s IH]; simpl; [reflexivity | now rewrite IH].
Qed.

Lemma substring_prefix_length (n : nat) (s : string) :
  String.length (String.substring 0 n s) = Nat.min n (String.length s).
Proof.
  revert n. induction s as [| c s IH]; intros [| n]; simpl; try reflexivity.
  now rewrite IH.
Qed.

Lemma substring_prefix_all (n : nat) (s : string) :
  String.length s <= n -> String.substring 0 n s = s.
Proof.
  revert n. induction s as [| c s IH]; intros [| n]; simpl; try reflexivity.
  - lia.
  - intros H. rewrite IH by lia. reflexivity.
Qed.

Lemma ellipsis_widths (n : nat) (s : string) :
  String.length (Cli.ellipsis n s) <= n + 3.
Proof.
  unfold Cli.ellipsis. rewrite string_length_append, substring_prefix_length.
  destruct (n <? String.length s); simpl; lia.
Qed.

(** X21. The shortening used for the cells of [list] and for the panel of
    [commit] keeps a text of at most [n] characters as it is, and turns a
    longer one into its first [n] characters followed by three dots. *)
Theorem ellipsis_behaviour (n : nat) (s : string) :
  (String.length s <= n -> Cli.ellipsis n s = s) /\
  (n < String.length s ->
   Cli.ellipsis n s = (String.substring 0 n s ++ "...")%string /\
   String.length (Cli.ellipsis n s) = n + 3) /\
  String.length (Cli.ellipsis n s) <= n + 3.
Proof.
  unfold Cli.ellipsis. repeat split.
  - intros H. replace (n <? String.length s) with false
      by (symmetry; apply Nat.ltb_ge; lia).
    rewrite substring_prefix_all by exact H. apply append_empty_r.
  - apply Nat.ltb_lt in H. now rewrite H.
  - pose proof H as H'. apply Nat.ltb_lt in H'. rewrite H'.
    rewrite string_length_append, substring_prefix_length. simpl. lia.
  - apply ellipsis_widths.
Qed.

Lemma list_row_widths (e : ErrorEntry) :
  String.length (Cli.col_id (Cli.list_row e)) <= 8 /\
  String.length (Cli.col_error (Cli.list_row e)) <= 43 /\
  String.length (Cli.col_fix (Cli.list_row e)) <= 43.
Proof.
  unfold Cli.list_row. cbn [Cli.col_id Cli.col_error Cli.col_fix]. repeat split.
  - rewrite substring_prefix_length. lia.
  - apply (ellipsis_widths 40).
  - apply (ellipsis_widths 40).
Qed.

(** X22. For a store that is not empty and a limit that is not negative,
    [list] shows the first [limit] entries (all of them when there are no
    more), gives the count of all entries in the title, keeps every cell
    within 8 characters for the id and 43 for the texts, and adds the
    closing line exactly when some entries are not shown. *)
Theorem list_errors_table (entries : list ErrorEntry) (limit : Z) :
  entries <> [] ->
  (0 <= limit)%Z ->
  exists rows showing,
    Cli.list_errors entries limit = Cli.Table (List.length entries) rows showing /\
    rows = map Cli.list_row (firstn (Z.to_nat limit) entries) /\
    List.length rows = Nat.min (Z.to_nat limit) (List.length entries) /\
    (showing = None <-> List.length rows = List.length entries) /\
    Forall (fun r => String.length (Cli.col_id r) <= 8 /\
                     String.length (Cli.col_error r) <= 43 /\
                     String.length (Cli.col_fix r) <= 43) rows.
Proof.
  intros Hne Hlimit. unfold Cli.list_errors.
  destruct entries as [| e l] eqn:E; [congruence |]. rewrite <- E. clear Hne.
  assert (Hslice : slice_to entries limit = firstn (Z.to_nat limit) entries).
  { unfold slice_to. now replace (limit <? 0)%Z with false
      by (symmetry; apply Z.ltb_ge; lia). }
  rewrite Hslice. eexists. eexists. split; [reflexivity |].
  split; [reflexivity |].
  assert (Hlen : List.length (map Cli.list_row (firstn (Z.to_nat limit) entries)) =
                 Nat.min (Z.to_nat limit) (List.length entries)).
  { now rewrite length_map, length_firstn. }
  split; [exact Hlen |]. split.
  - rewrite Hlen. destruct (limit <? Z.of_nat (List.length entries))%Z eqn:El.
    + apply Z.ltb_lt in El. split; [discriminate | lia].
    + apply Z.ltb_ge in El. split; [lia | reflexivity].
  - apply Forall_forall. intros r Hr. apply in_map_iff in Hr.
    destruct Hr as (x & <- & _). apply list_row_widths.
Qed.

Lemma get_storage_remote_key_witness :
  let usable k := match k with
                  | Some s => PyStr.truthy s
                  | None => false
                  end in
  let remote k := Cli.Return (Cli.Remote k
                                (Config.turbopuffer_namespace sample_remote_config)
                                (Config.turbopuffer_region sample_remote_config)) in
  (forall s, Config.turbopuffer_api_key sample_remote_config = Some s ->
     PyStr.truthy s = true ->
     Cli.get_storage sample_remote_config (Some "tpuf_key") empty_disk = remote s) /\
  (forall s, usable (Config.turbopuffer_api_key sample_remote_config) = false ->
     Some "tpuf_key" = Some s -> PyStr.truthy s = true ->
     Cli.get_storage sample_remote_config (Some "tpuf_key") empty_disk = remote s) /\
  (usable (Config.turbopuffer_api_key sample_remote_config) = false ->
   usable (Some "tpuf_key") = false ->
   Cli.get_storage sample_remote_config (Some "tpuf_key") empty_disk =
     Cli.SystemExit 1).
Proof.
  apply (get_storage_remote_key sample_remote_config (Some "tpuf_key") empty_disk).
  reflexivity.
Defined.

Lemma get_storage_local_witness :
  exists self,
    Cli.get_storage sample_local_config None empty_disk =
      Cli.Return (Cli.Local (Config.local_file_path sample_local_config) self) /\
    (LocalStorage.file (empty_disk (Config.local_file_path sample_local_config)) =
       LocalStorage.Absent ->
     LocalStorage.get_all sample_runtime self = Ok []) /\
    (LocalStorage.file (empty_disk (Config.local_file_path sample_local_config)) <>
       LocalStorage.Absent ->
     self = empty_disk (Config.local_file_path sample_local_config)).
Proof.
  apply (get_storage_local sample_runtime sample_local_config None empty_disk);
    reflexivity.
Defined.

Lemma commit_command_appends_witness :
  exists self',
    Cli.commit_local sample_runtime 0 sample_local_config (disk_of [entry_foo])
                     "" "try again" [" x"] = Ok self' /\
    LocalStorage.get_all sample_runtime self' =
      Ok ([entry_foo] ++
          [{| id := uuid4 sample_runtime 0; error_text := ""; message := "try again";
              created_at := now sample_runtime 0;
              author := Config.author_name sample_local_config;
              tags := [" x"] |}]).
Proof.
  apply (commit_command_appends sample_runtime 0 sample_local_config
           (disk_of [entry_foo]) "" "try again" [" x"] [entry_foo]); reflexivity.
Defined.

Lemma list_errors_table_witness :
  exists rows showing,
    Cli.list_errors [entry_foo; entry_port; entry_perm] 2 =
      Cli.Table (List.length [entry_foo; entry_port; entry_perm]) rows showing /\
    rows = map Cli.list_row (firstn (Z.to_nat 2) [entry_foo; entry_port; entry_perm]) /\
    List.length rows = Nat.min (Z.to_nat 2) (List.length [entry_foo; entry_port; entry_perm]) /\
    (showing = None <-> List.length rows = List.length [entry_foo; entry_port; entry_perm]) /\
    Forall (fun r => String.length (Cli.col_id r) <= 8 /\
                     String.length (Cli.col_error r) <= 43 /\
                     String.length (Cli.col_fix r) <= 43) rows.
Proof.
  apply (list_errors_table [entry_foo; entry_port; entry_perm] 2).
  - discriminate.
  - lia.
Defined.

(** * Case and missing attributes *)

Lemma lower_char_idempotent (c : ascii) :
  PyStr.lower_char (PyStr.lower_char c) = PyStr.lower_char c.
Proof.
  destruct c as [[] [] [] [] [] [] [] []]; reflexivity.
Qed.

Lemma lower_idempotent (s : string) : PyStr.lower (PyStr.lower s) = PyStr.lower s.
Proof.
  induction s as [| c s IH]; simpl; [reflexivity |].
  now rewrite lower_char_idempotent, IH.
Qed.

(** X23. The local [search] does not see the case of the query: a query
    and its lowercased form return the same results with the same
    scores. *)
Theorem local_search_ignores_query_case (rt : Runtime) (self : LocalStorage.t)
        (query : string) (limit : Z) :
  LocalStorage.search rt self (PyStr.lower query) limit =
  LocalStorage.search rt self query limit.
Proof.
  unfold LocalStorage.search. now rewrite lower_idempotent.
Qed.

Section RemoteRows.

Variable rt : Runtime.

(** A row that carries nothing but its id converts: the entry has empty
    texts, no author, no tags, and the current time as its timestamp. *)
Lemma remote_row_without_attributes (n : nat) (i : string) (d : option Q) :
  TurbopufferStorage.row_to_entry rt n
    {| TurbopufferStorage.r_id := i;
       TurbopufferStorage.r_error_text := TurbopufferStorage.Missing;
       TurbopufferStorage.r_message := TurbopufferStorage.Missing;
       TurbopufferStorage.r_created_at := TurbopufferStorage.Missing;
       TurbopufferStorage.r_author := TurbopufferStorage.Missing;
       TurbopufferStorage.r_tags := TurbopufferStorage.Missing;
       TurbopufferStorage.r_dist := d |} =
  Ok {| id := i; error_text := EmptyString; message := EmptyString;
        created_at := now rt n; author := None; tags := [] |}.
Proof.
  reflexivity.
Qed.

Lemma row_with_null_text_fails (n : nat) (row : TurbopufferStorage.Row) :
  TurbopufferStorage.r_error_text row = TurbopufferStorage.Null \/
  TurbopufferStorage.r_message row = TurbopufferStorage.Null ->
  exists x, TurbopufferStorage.row_to_entry rt n row = Raise x.
Proof.
  intros H. unfold TurbopufferStorage.row_to_entry.
  destruct (match TurbopufferStorage.r_created_at row with
            | TurbopufferStorage.Text s =>
                if PyStr.truthy s then TurbopufferStorage.fromisoformat rt s
                else Ok (now rt n)
            | _ => Ok (now rt n)
            end) as [c | x]; [| cbn [bind]; eauto].
  cbn [bind]. unfold ErrorEntry_init, model_validate.
  cbn [lookup String.eqb Ascii.eqb Bool.eqb with_default required bind validate_str].
  destruct H as [H | H].
  - rewrite H. cbn. eauto.
  - rewrite H.
    destruct (TurbopufferStorage.r_error_text row); cbn; eauto.
Qed.

Lemma rows_to_entries_fails (n : nat) (rows : list TurbopufferStorage.Row)
      (row : TurbopufferStorage.Row) :
  In row rows ->
  (forall k, exists x, TurbopufferStorage.row_to_entry rt k row = Raise x) ->
  exists x, TurbopufferStorage.rows_to_entries rt n rows = Raise x.
Proof.
  intros Hin Hfail. revert n. induction rows as [| r rows IH]; intros n; [destruct Hin |].
  cbn [TurbopufferStorage.rows_to_entries].
  destruct Hin as [-> | Hin].
  - destruct (Hfail n) as (x & ->). cbn [bind]. eauto.
  - destruct (TurbopufferStorage.row_to_entry rt n r) as [e | x]; cbn [bind]; [| eauto].
    destruct (IH Hin (S n)) as (x & ->). cbn [bind]. eauto.
Qed.

Context {M : Type}.
Variable medium : TurbopufferStorage.Medium M.

(** X24. One exported row whose [error_text] or [message] is [None] is
    enough for the remote [get_all], and so for [count], to report an
    empty store, whatever the other rows hold. *)
Theorem remote_null_text_empties_get_all (self : TurbopufferStorage.t M)
        (rows : list TurbopufferStorage.Row) (row : TurbopufferStorage.Row) :
  TurbopufferStorage.export medium (TurbopufferStorage.ns self) = Ok rows ->
  In row rows ->
  TurbopufferStorage.r_error_text row = TurbopufferStorage.Null \/
  TurbopufferStorage.r_message row = TurbopufferStorage.Null ->
  fst (TurbopufferStorage.get_all rt medium self) = [] /\
  fst (TurbopufferStorage.count rt medium self) = 0.
Proof.
  intros Hexp Hin Hnull.
  assert (Hall : fst (TurbopufferStorage.get_all rt medium self) = []).
  { unfold TurbopufferStorage.get_all. rewrite ns_ensure_initialized, Hexp.
    cbn [bind fst].
    destruct (rows_to_entries_fails 0 rows row Hin
                (fun k => row_with_null_text_fails k row Hnull)) as (x & ->).
    reflexivity. }
  split; [exact Hall |].
  unfold TurbopufferStorage.count.
  destruct (TurbopufferStorage.get_all rt medium self) as [entries self'].
  simpl in *. now subst.
Qed.

End RemoteRows.

Lemma remote_null_text_empties_get_all_witness :
  let rows := [MemoryMedium.to_row (TurbopufferStorage.upsert_row entry_foo);
               row_null_text] in
  let self := {| TurbopufferStorage.ns := rows;
                 TurbopufferStorage._initialized := false |} in
  fst (TurbopufferStorage.get_all sample_runtime canned_medium self) = [] /\
  fst (TurbopufferStorage.count sample_runtime canned_medium self) = 0.
Proof.
  apply (remote_null_text_empties_get_all sample_runtime canned_medium
           {| TurbopufferStorage.ns :=
                [MemoryMedium.to_row (TurbopufferStorage.upsert_row entry_foo);
                 row_null_text];
              TurbopufferStorage._initialized := false |}
           [MemoryMedium.to_row (TurbopufferStorage.upsert_row entry_foo); row_null_text]
           row_null_text).
  - reflexivity.
  - right. left. reflexivity.
  - left. reflexivity.
Defined.
